(** * HdEngine: the phased execution engine of pxr/imaging/hd/engine.cpp

    A shallow embedding of [HdEngine] (task-context accessors and the two
    [Execute] overloads) together with the properties of its phase
    protocol.  The scene index, the render delegate and the tasks are
    collaborators whose code lives elsewhere; they enter as the fields of
    the class [Collaborators]. *)

From stdpp Require Import base list strings.
From Stdlib Require Import Lia.

Set Default Proof Using "Type*".

(** ** [std::unordered_map], as far as the engine uses it

    [HdTaskContext] is a [std::unordered_map<TfToken, VtValue>].  The
    iteration order of the container is unspecified and unused by the
    engine, so an entry list stands for it; whether a key can occur twice
    is a property to be proved of the engine's operations, not built into
    the type. *)
Module UnorderedMap.
Section unordered_map.
Context {K V : Type} `{!EqDecision K}.

Definition keys (m : list (K * V)) : list K := m.*1.

(** [m.find(k)], with the iterator read through [->second];
    [None] is [m.end()]. *)
Fixpoint find (k : K) (m : list (K * V)) : option V :=
  match m with
  | [] => None
  | (k', v) :: m' => if decide (k' = k) then Some v else find k m'
  end.

(** [it->second = v] for the iterator [it] that [find]/[emplace]
    returned for key [k]. *)
Fixpoint assign_at (k : K) (v : V) (m : list (K * V)) : list (K * V) :=
  match m with
  | [] => []
  | (k', v') :: m' =>
      if decide (k' = k) then (k', v) :: m' else (k', v') :: assign_at k v m'
  end.

(** [m.emplace(k, v)]: inserts only when no entry has key [k]; the
    boolean is [result.second]. *)
Definition emplace (k : K) (v : V) (m : list (K * V)) : list (K * V) * bool :=
  match find k m with
  | Some _ => (m, false)
  | None => (m ++ [(k, v)], true)
  end.

(** [m.erase(k)]. *)
Definition erase (k : K) (m : list (K * V)) : list (K * V) :=
  filter (λ e, e.1 ≠ k) m.

(** [m.clear()]. *)
Definition clear (m : list (K * V)) : list (K * V) := [].

(** [m[k] = v]: [operator[]] creates the entry when it is missing and
    the assignment then stores [v] in it. *)
Definition subscript_assign (k : K) (v : V) (m : list (K * V)) : list (K * V) :=
  match find k m with
  | Some _ => assign_at k v m
  | None => m ++ [(k, v)]
  end.

(** Number of entries stored under [k]. *)
Definition count (k : K) (m : list (K * V)) : nat :=
  length (filter (λ e, e.1 = k) m).

(** The container invariant: no key occurs in two entries. *)
Definition unique_keys (m : list (K * V)) : Prop := NoDup (keys m).
End unordered_map.
End UnorderedMap.

(** ** Data model *)

(** Modelled from the spec: [TfToken] (tf/token.h) and [SdfPath]
    (sdf/path.h) are declared outside engine.cpp.  A token is an interned
    identifier and a path a scene-path identifier; both are taken by their
    text. *)
Definition TfToken := string.
Definition SdfPath := string.

(** Modelled from the spec: [SdfPath::IsEmpty()] holds of the empty path,
    the path with no text; [SdfPath::GetText()] is the text. *)
Definition IsEmpty (taskPath : SdfPath) : bool := bool_decide (taskPath = "").
Definition GetText (taskPath : SdfPath) : string := taskPath.

(** Modelled from the spec: [HdTokens->drivers] (hd/tokens.h), the key
    named for the drivers. *)
Definition HdTokens_drivers : TfToken := "drivers".

(** The types the engine only passes along.  [HdTask] and [HdRenderIndex]
    stand for live objects: a pointer to one is an [option], with [None]
    for [nullptr].  [Scene] is all the state behind the collaborators (the
    render index with its change tracker, the render delegate and its
    resource registry, the tasks' own members). *)
Class HdTypes := {
  VtValue : Type;
  HdDriverVector : Type;
  HdTask : Type;
  HdRenderIndex : Type;
  HdRenderDelegate : Type;
  HdChangeTracker : Type;
  Scene : Type;
}.

(** [HdTaskContext] is the unordered map from tokens to values; an
    [HdTaskSharedPtr] is a shared pointer to a task, possibly null. *)
Abbreviation HdTaskContext := (list (TfToken * VtValue)).
Abbreviation HdTaskSharedPtr := (option HdTask).
Abbreviation HdTaskSharedPtrVector := (list (option HdTask)).

Section engine.
Context `{HdTypes}.

(** The member functions of the collaborators that engine.cpp calls.
    Each one receives what the call site hands over (a pointer to the
    task vector or to the task context lets the callee change it) and the
    scene state. *)
Class Collaborators := {
  (** the converting constructor [VtValue(const HdDriverVector &)] *)
  VtValue_of_drivers : HdDriverVector → VtValue;
  (** [HdRenderIndex::GetDrivers() const] *)
  GetDrivers : HdRenderIndex → Scene → HdDriverVector;
  (** [HdRenderIndex::SyncAll(tasks, taskContext)], both by pointer *)
  SyncAll : HdRenderIndex → HdTaskSharedPtrVector → HdTaskContext → Scene →
            HdTaskSharedPtrVector * HdTaskContext * Scene;
  (** [HdRenderIndex::GetTask(const SdfPath &) const] *)
  GetTask : HdRenderIndex → SdfPath → Scene → HdTaskSharedPtr;
  (** [HdRenderIndex::GetRenderDelegate() const] *)
  GetRenderDelegate : HdRenderIndex → Scene → HdRenderDelegate;
  (** [HdRenderIndex::GetChangeTracker()] *)
  GetChangeTracker : HdRenderIndex → Scene → HdChangeTracker;
  (** [HdRenderDelegate::CommitResources(tracker)] *)
  CommitResources : HdRenderDelegate → HdChangeTracker → Scene → Scene;
  (** [HdTask::Prepare(ctx, renderIndex)], the context by pointer *)
  Prepare : HdTask → HdTaskContext → HdRenderIndex → Scene → HdTaskContext * Scene;
  (** [HdTask::Execute(ctx)], the context by pointer *)
  TaskExecute : HdTask → HdTaskContext → Scene → HdTaskContext * Scene;
}.

Context `{!Collaborators}.

(** What the engine does that an observer outside can see: the calls it
    makes on its collaborators and its reads of the task vector. *)
Inductive Event :=
  | CallGetDrivers
  | CallSyncAll (tasks : HdTaskSharedPtrVector) (ctx : HdTaskContext)
  | ReadSize (numTasks : nat)
  | ReadAt (taskNum : nat)
  | CallPrepare (task : HdTask)
  | CallGetRenderDelegate
  | CallGetChangeTracker
  | CallCommitResources
  | CallExecute (task : HdTask)
  | CallGetTask (taskPath : SdfPath).

(** The engine's member [_taskContext], the collaborators' state, and the
    two observation channels: the events above and the diagnostics posted
    by [TF_CODING_ERROR] / [TF_VERIFY]. *)
Record World := mkWorld {
  _taskContext : HdTaskContext;
  scene : Scene;
  trace : list Event;
  diagnostics : list string;
}.

(** Undefined behaviour the source can run into. *)
Inductive Fault := NullDereference | OutOfBounds.

Inductive Outcome (A : Type) :=
  | Returned (a : A) (w : World)
  | Crashed (f : Fault) (w : World).
Global Arguments Returned {A} a w.
Global Arguments Crashed {A} f w.

(** Engine computations: state passing over [World], stopping at the
    first fault. *)
Definition Eng (A : Type) : Type := World → Outcome A.

Definition eng_ret {A} (a : A) : Eng A := λ w, Returned a w.
Definition eng_bind {A B} (c : Eng A) (k : A → Eng B) : Eng B :=
  λ w, match c w with
       | Returned a w' => k a w'
       | Crashed f w' => Crashed f w'
       end.
End engine.

Notation "x ←' c ; k" := (eng_bind c (λ x, k))
  (at level 100, c at next level, right associativity,
   format "x  ←'  c ;  '/' k").
Notation "c ;;' k" := (eng_bind c (λ _, k))
  (at level 100, k at level 200, right associativity,
   format "c ;;'  '/' k").

(** ** The engine *)
Section hd_engine.
Context `{HdTypes} `{!Collaborators}.

(** *** Primitive steps *)

Definition crash {A} (f : Fault) : Eng A := λ w, Crashed f w.

Definition emit (e : Event) : Eng unit :=
  λ w, Returned () (mkWorld (_taskContext w) (scene w) (trace w ++ [e]) (diagnostics w)).

(** [TF_CODING_ERROR(msg)]: posts a diagnostic and carries on. *)
Definition TF_CODING_ERROR (msg : string) : Eng unit :=
  λ w, Returned () (mkWorld (_taskContext w) (scene w) (trace w) (diagnostics w ++ [msg])).

Definition get_taskContext : Eng HdTaskContext := λ w, Returned (_taskContext w) w.

Definition update_taskContext (f : HdTaskContext → HdTaskContext) : Eng unit :=
  λ w, Returned () (mkWorld (f (_taskContext w)) (scene w) (trace w) (diagnostics w)).

(** [p->], for a pointer [p] that may be null. *)
Definition deref {A} (p : option A) : Eng A :=
  match p with
  | Some a => eng_ret a
  | None => crash NullDereference
  end.

(** [index->GetDrivers()] *)
Definition index_GetDrivers (index : option HdRenderIndex) : Eng HdDriverVector :=
  i ←' deref index;
  emit CallGetDrivers;;'
  λ w, Returned (GetDrivers i (scene w)) w.

(** [index->SyncAll(tasks, &_taskContext)]; the result is what the
    vector behind [tasks] holds afterwards. *)
Definition index_SyncAll (index : option HdRenderIndex) (tasks : HdTaskSharedPtrVector)
    : Eng HdTaskSharedPtrVector :=
  i ←' deref index;
  ctx ←' get_taskContext;
  emit (CallSyncAll tasks ctx);;'
  λ w, let '(tasks', ctx', s') := SyncAll i tasks (_taskContext w) (scene w) in
       Returned tasks' (mkWorld ctx' s' (trace w) (diagnostics w)).

(** [index->GetTask(taskPath)] *)
Definition index_GetTask (index : option HdRenderIndex) (taskPath : SdfPath)
    : Eng HdTaskSharedPtr :=
  i ←' deref index;
  emit (CallGetTask taskPath);;'
  λ w, Returned (GetTask i taskPath (scene w)) w.

(** [index->GetRenderDelegate()] *)
Definition index_GetRenderDelegate (index : option HdRenderIndex) : Eng HdRenderDelegate :=
  i ←' deref index;
  emit CallGetRenderDelegate;;'
  λ w, Returned (GetRenderDelegate i (scene w)) w.

(** [index->GetChangeTracker()] *)
Definition index_GetChangeTracker (index : option HdRenderIndex) : Eng HdChangeTracker :=
  i ←' deref index;
  emit CallGetChangeTracker;;'
  λ w, Returned (GetChangeTracker i (scene w)) w.

(** [renderDelegate->CommitResources(tracker)] *)
Definition renderDelegate_CommitResources (renderDelegate : HdRenderDelegate)
    (tracker : HdChangeTracker) : Eng unit :=
  emit CallCommitResources;;'
  λ w, Returned () (mkWorld (_taskContext w) (CommitResources renderDelegate tracker (scene w))
                            (trace w) (diagnostics w)).

(** [tasks->size()] *)
Definition tasks_size (tasks : HdTaskSharedPtrVector) : Eng nat :=
  emit (ReadSize (length tasks));;'
  eng_ret (length tasks).

(** [tasks->operator[](taskNum)]; indexing a [std::vector] past its end
    is undefined. *)
Definition tasks_at (tasks : HdTaskSharedPtrVector) (taskNum : nat) : Eng HdTaskSharedPtr :=
  emit (ReadAt taskNum);;'
  match tasks !! taskNum with
  | Some task => eng_ret task
  | None => crash OutOfBounds
  end.

(** [task->Prepare(&_taskContext, index)] *)
Definition task_Prepare (task : HdTaskSharedPtr) (index : HdRenderIndex) : Eng unit :=
  t ←' deref task;
  emit (CallPrepare t);;'
  λ w, let '(ctx', s') := Prepare t (_taskContext w) index (scene w) in
       Returned () (mkWorld ctx' s' (trace w) (diagnostics w)).

(** [task->Execute(&_taskContext)] *)
Definition task_Execute (task : HdTaskSharedPtr) : Eng unit :=
  t ←' deref task;
  emit (CallExecute t);;'
  λ w, let '(ctx', s') := TaskExecute t (_taskContext w) (scene w) in
       Returned () (mkWorld ctx' s' (trace w) (diagnostics w)).

(** [for (size_t taskNum = first; taskNum < first + count; ++taskNum) body] *)
Fixpoint for_taskNum (taskNum count : nat) (body : nat → Eng unit) : Eng unit :=
  match count with
  | 0 => eng_ret ()
  | S count' => body taskNum;;' for_taskNum (S taskNum) count' body
  end.

(** *** Construction and the task-context accessors *)

(** [HdEngine::HdEngine()]: an empty [_taskContext]. *)
Definition HdEngine (s : Scene) : World := mkWorld [] s [] [].

Definition SetTaskContextData (id : TfToken) (data : VtValue) : Eng unit :=
  update_taskContext (λ ctx,
    let result := UnorderedMap.emplace id data ctx in
    if negb result.2
    then UnorderedMap.assign_at id data result.1
    else result.1).

(** The out-parameter [data] is a pointer: [None] is [nullptr],
    [Some d] a variable currently holding [d].  The result pairs the
    returned [bool] with what the variable holds afterwards. *)
Definition GetTaskContextData (id : TfToken) (data : option VtValue)
    : Eng (bool * option VtValue) :=
  match data with
  | None =>
      TF_CODING_ERROR "Failed verification: ' data '";;'
      eng_ret (false, None)
  | Some d =>
      ctx ←' get_taskContext;
      match UnorderedMap.find id ctx with
      | Some v => eng_ret (true, Some v)
      | None => eng_ret (false, Some d)
      end
  end.

Definition RemoveTaskContextData (id : TfToken) : Eng unit :=
  update_taskContext (UnorderedMap.erase id).

Definition ClearTaskContextData : Eng unit :=
  update_taskContext UnorderedMap.clear.

(** *** [Execute(HdRenderIndex *index, HdTaskSharedPtrVector *tasks)] *)

(** Line 88, [_taskContext[HdTokens->drivers] = VtValue(index->GetDrivers())]. *)
Definition Seed (index : option HdRenderIndex) : Eng unit :=
  drivers ←' index_GetDrivers index;
  update_taskContext (UnorderedMap.subscript_assign HdTokens_drivers (VtValue_of_drivers drivers)).

(** The result is the content of the vector behind [tasks] when the call
    returns ([None] when [tasks] is null). *)
Definition Execute (index : option HdRenderIndex) (tasks : option HdTaskSharedPtrVector)
    : Eng (option HdTaskSharedPtrVector) :=
  match index, tasks with
  | Some i, Some tasks0 =>
      Seed index;;'
      tasks1 ←' index_SyncAll index tasks0;
      numTasks ←' tasks_size tasks1;
      for_taskNum 0 numTasks (λ taskNum,
        task ←' tasks_at tasks1 taskNum;
        task_Prepare task i);;'
      renderDelegate ←' index_GetRenderDelegate index;
      tracker ←' index_GetChangeTracker index;
      renderDelegate_CommitResources renderDelegate tracker;;'
      for_taskNum 0 numTasks (λ taskNum,
        task ←' tasks_at tasks1 taskNum;
        task_Execute task);;'
      eng_ret (Some tasks1)
  | _, _ =>
      TF_CODING_ERROR "Passed nullptr to HdEngine::Execute()";;'
      eng_ret tasks
  end.

(** *** [Execute(HdRenderIndex *index, const SdfPathVector &taskPaths)] *)

(** The range-for over [taskPaths]; [tasks] is the local vector built so
    far. *)
Fixpoint resolve_taskPaths (index : option HdRenderIndex) (taskPaths : list SdfPath)
    (tasks : HdTaskSharedPtrVector) : Eng HdTaskSharedPtrVector :=
  match taskPaths with
  | [] => eng_ret tasks
  | taskPath :: rest =>
      if IsEmpty taskPath then
        TF_CODING_ERROR "Empty task path given to HdEngine::Execute()";;'
        resolve_taskPaths index rest tasks
      else
        task ←' index_GetTask index taskPath;
        match task with
        | None =>
            TF_CODING_ERROR ("No task at " +:+ GetText taskPath +:+
                             " in render index in HdEngine::Execute()");;'
            resolve_taskPaths index rest tasks
        | Some _ => resolve_taskPaths index rest (tasks ++ [task])
        end
  end.

Definition Execute_taskPaths (index : option HdRenderIndex) (taskPaths : list SdfPath)
    : Eng unit :=
  tasks ←' resolve_taskPaths index taskPaths [];
  Execute index (Some tasks);;'
  eng_ret ().
End hd_engine.

(** ** Observations on a trace *)
Section observations.
Context `{HdTypes}.

(** The four phase calls of the protocol. *)
Definition is_phase_call (e : Event) : bool :=
  match e with
  | CallSyncAll _ _ | CallPrepare _ | CallCommitResources | CallExecute _ => true
  | _ => false
  end.

Definition phase_calls (evs : list Event) : list Event :=
  filter (λ e, is_phase_call e = true) evs.

(** The tasks whose [Prepare] was called, in call order. *)
Definition prepare_calls (evs : list Event) : list HdTask :=
  omap (λ e, match e with CallPrepare t => Some t | _ => None end) evs.

(** The tasks whose [Execute] was called, in call order. *)
Definition execute_calls (evs : list Event) : list HdTask :=
  omap (λ e, match e with CallExecute t => Some t | _ => None end) evs.

(** The positions of the task vector that were read, in order. *)
Definition element_reads (evs : list Event) : list nat :=
  omap (λ e, match e with ReadAt taskNum => Some taskNum | _ => None end) evs.

End observations.

(** ** What the phases are expected to look like *)
Section expectations.
Context `{HdTypes} `{!Collaborators}.

(** The task context as [Seed] leaves it. *)
Definition seeded (i : HdRenderIndex) (w : World) : HdTaskContext :=
  UnorderedMap.subscript_assign HdTokens_drivers
    (VtValue_of_drivers (GetDrivers i (scene w))) (_taskContext w).

(** The task vector as [SyncAll] leaves it. *)
Definition synced_tasks (i : HdRenderIndex) (tasks : HdTaskSharedPtrVector) (w : World)
    : HdTaskSharedPtrVector :=
  (SyncAll i tasks (seeded i w) (scene w)).1.1.

(** One pass over the tasks in a phase: each position is read, then the
    task found there is called. *)
Definition phase_events (call : HdTask → Event) (ts : list HdTask) : list Event :=
  mjoin (imap (λ taskNum t, [ReadAt taskNum; call t]) ts).

(** The same pass, started at position [first]. *)
Fixpoint phase_events_from (first : nat) (call : HdTask → Event) (ts : list HdTask)
    : list Event :=
  match ts with
  | [] => []
  | t :: ts' => ReadAt first :: call t :: phase_events_from (S first) call ts'
  end.

Definition prepare_phase : list HdTask → list Event := phase_events CallPrepare.
Definition execute_phase : list HdTask → list Event := phase_events CallExecute.

Definition commit_phase : list Event :=
  [CallGetRenderDelegate; CallGetChangeTracker; CallCommitResources].

(** Everything one call of the primary [Execute] is expected to do, when
    [ts] are the tasks in the vector after [SyncAll]. *)
Definition execute_events (i : HdRenderIndex) (tasks : HdTaskSharedPtrVector) (w : World)
    (ts : list HdTask) : list Event :=
  [CallGetDrivers; CallSyncAll tasks (seeded i w); ReadSize (length ts)]
  ++ prepare_phase ts ++ commit_phase ++ execute_phase ts.

(** The task context and the scene, phase after phase. *)
Definition run_tasks (step : HdTask → HdTaskContext * Scene → HdTaskContext * Scene)
    (ts : list HdTask) (cs : HdTaskContext * Scene) : HdTaskContext * Scene :=
  foldl (λ cs t, step t cs) cs ts.

Definition prepare_step (i : HdRenderIndex) (t : HdTask) (cs : HdTaskContext * Scene)
    : HdTaskContext * Scene :=
  Prepare t cs.1 i cs.2.

Definition execute_step (t : HdTask) (cs : HdTaskContext * Scene) : HdTaskContext * Scene :=
  TaskExecute t cs.1 cs.2.

Definition after_sync (i : HdRenderIndex) (tasks : HdTaskSharedPtrVector) (w : World)
    : HdTaskContext * Scene :=
  let r := SyncAll i tasks (seeded i w) (scene w) in (r.1.2, r.2).

Definition after_prepare (i : HdRenderIndex) (tasks : HdTaskSharedPtrVector) (w : World)
    (ts : list HdTask) : HdTaskContext * Scene :=
  run_tasks (prepare_step i) ts (after_sync i tasks w).

Definition after_commit (i : HdRenderIndex) (tasks : HdTaskSharedPtrVector) (w : World)
    (ts : list HdTask) : HdTaskContext * Scene :=
  let cs := after_prepare i tasks w ts in
  (cs.1, CommitResources (GetRenderDelegate i cs.2) (GetChangeTracker i cs.2) cs.2).

Definition after_execute (i : HdRenderIndex) (tasks : HdTaskSharedPtrVector) (w : World)
    (ts : list HdTask) : HdTaskContext * Scene :=
  run_tasks execute_step ts (after_commit i tasks w ts).

(** The entries stored under the drivers key. *)
Definition drivers_entries (ctx : HdTaskContext) : HdTaskContext :=
  filter (λ e, e.1 = HdTokens_drivers) ctx.

(** A collaborator that keeps its hands off the drivers entry. *)
Definition keeps_drivers (f : HdTaskContext → Scene → HdTaskContext) : Prop :=
  ∀ ctx s, drivers_entries (f ctx s) = drivers_entries ctx.

(** Path resolution in the words of the specification: an empty path and
    a path without a task are skipped with a usage error each, the others
    contribute their task. *)
Definition resolves_to (i : HdRenderIndex) (s : Scene) (taskPath : SdfPath) : option HdTask :=
  if IsEmpty taskPath then None else GetTask i taskPath s.

Definition resolved_tasks (i : HdRenderIndex) (s : Scene) (taskPaths : list SdfPath)
    : list HdTask :=
  omap (resolves_to i s) taskPaths.

Definition usage_error (i : HdRenderIndex) (s : Scene) (taskPath : SdfPath) : option string :=
  if IsEmpty taskPath then Some "Empty task path given to HdEngine::Execute()"
  else match GetTask i taskPath s with
       | Some _ => None
       | None => Some ("No task at " +:+ taskPath +:+ " in render index in HdEngine::Execute()")
       end.

Definition usage_errors (i : HdRenderIndex) (s : Scene) (taskPaths : list SdfPath)
    : list string :=
  omap (usage_error i s) taskPaths.

Definition lookups (taskPaths : list SdfPath) : list Event :=
  CallGetTask <$> filter (λ p, IsEmpty p = false) taskPaths.

(** The number of empty paths at the head of a path list. *)
Fixpoint leading_empty (taskPaths : list SdfPath) : nat :=
  match taskPaths with
  | [] => 0
  | taskPath :: rest => if IsEmpty taskPath then S (leading_empty rest) else 0
  end.

(** Histories of accessor calls on one engine. *)
Inductive Accessor :=
  | ASet (id : TfToken) (data : VtValue)
  | AGet (id : TfToken) (data : option VtValue)
  | ARemove (id : TfToken)
  | AClear.

Definition run_accessor (a : Accessor) : Eng unit :=
  match a with
  | ASet id data => SetTaskContextData id data
  | AGet id data => GetTaskContextData id data;;' eng_ret ()
  | ARemove id => RemoveTaskContextData id
  | AClear => ClearTaskContextData
  end.

Fixpoint run_accessors (ops : list Accessor) : Eng unit :=
  match ops with
  | [] => eng_ret ()
  | a :: ops' => run_accessor a;;' run_accessors ops'
  end.

Definition sets_key (id : TfToken) (a : Accessor) : bool :=
  match a with
  | ASet id' _ => bool_decide (id' = id)
  | _ => false
  end.
End expectations.

(** ** The task context as a finite map

    What a lookup of [id] finds after an accessor call, from what it found
    before: the view of a client that only ever looks keys up. *)
Section accessor_model.
Context `{HdTypes}.

Definition accessor_effect (id : TfToken) (a : Accessor) (found : option VtValue)
    : option VtValue :=
  match a with
  | ASet id' data => if decide (id' = id) then Some data else found
  | AGet _ _ => found
  | ARemove id' => if decide (id' = id) then None else found
  | AClear => None
  end.

Definition lookup_after (id : TfToken) (ops : list Accessor) (found : option VtValue)
    : option VtValue :=
  foldl (λ found a, accessor_effect id a found) found ops.
End accessor_model.

(** ** One call, whatever its end *)
Section call_model.
Context `{HdTypes} `{!Collaborators}.

(** The world a computation ends in, by returning or at a fault. *)
Definition world_of {A} (o : Outcome A) : World :=
  match o with
  | Returned _ w => w
  | Crashed _ w => w
  end.

(** The tasks of a vector before its first null entry: all of them when
    no entry is null. *)
Fixpoint live_prefix (v : HdTaskSharedPtrVector) : list HdTask :=
  match v with
  | Some t :: v' => t :: live_prefix v'
  | _ => []
  end.

Definition all_live (v : HdTaskSharedPtrVector) : bool :=
  forallb (λ p, match p with Some _ => true | None => false end) v.

(** The events of one call of the primary [Execute] with non-null
    arguments, from the vector that [SyncAll] leaves: the Prepare loop
    takes the tasks up to the first null entry; with no null entry the
    commit and the Execute loop follow, otherwise the read of the null
    entry is the last event. *)
Definition call_events (i : HdRenderIndex) (tasks : HdTaskSharedPtrVector) (w : World)
    : list Event :=
  let v := synced_tasks i tasks w in
  [CallGetDrivers; CallSyncAll tasks (seeded i w); ReadSize (length v)]
  ++ prepare_phase (live_prefix v)
  ++ (if all_live v then commit_phase ++ execute_phase (live_prefix v)
      else [ReadAt (length (live_prefix v))]).

(** The k-th call of a loop over [ts] found and left the same entries
    under the drivers key, for every k: no call of this loop, run from
    [cs], touched the drivers entry. *)
Definition untouched_by_tasks
    (step : HdTask → HdTaskContext * Scene → HdTaskContext * Scene)
    (ts : list HdTask) (cs : HdTaskContext * Scene) : Prop :=
  ∀ k t, ts !! k = Some t →
    drivers_entries (step t (run_tasks step (take k ts) cs)).1
    = drivers_entries (run_tasks step (take k ts) cs).1.

(** In this call, neither [SyncAll] nor any [Prepare] or [Execute] that
    was called touched the drivers entry. *)
Definition drivers_untouched (i : HdRenderIndex) (tasks : HdTaskSharedPtrVector)
    (w : World) : Prop :=
  let v := synced_tasks i tasks w in
  drivers_entries (after_sync i tasks w).1 = drivers_entries (seeded i w)
  ∧ untouched_by_tasks (prepare_step i) (live_prefix v) (after_sync i tasks w)
  ∧ (all_live v = true →
     untouched_by_tasks execute_step (live_prefix v) (after_commit i tasks w (live_prefix v))).
End call_model.

(** ** A small scene to run the engine on

    Tasks, indices and drivers are numbers.  The index numbered 1 adds a
    task to the vector during [SyncAll]; every task publishes its number
    under the key "prepared" in [Prepare]; task 9 removes the drivers
    entry in [Execute]. *)
Definition sample_types : HdTypes := {|
  VtValue := list nat;
  HdDriverVector := list nat;
  HdTask := nat;
  HdRenderIndex := nat;
  HdRenderDelegate := unit;
  HdChangeTracker := unit;
  Scene := list nat;
|}.

Definition sample : @Collaborators sample_types :=
  @Build_Collaborators sample_types
    (* VtValue_of_drivers *) (λ drivers : list nat, drivers)
    (* GetDrivers *) (λ (_ : nat) (s : list nat), s)
    (* SyncAll *)
    (λ (i : nat) (tasks : list (option nat)) (ctx : list (string * list nat)) (s : list nat),
       (if decide (i = 1) then tasks ++ [Some 7] else tasks, ctx, s))
    (* GetTask *)
    (λ (_ : nat) (taskPath : string) (_ : list nat),
       if decide (taskPath = "/A") then Some 1
       else if decide (taskPath = "/B") then Some 2
       else None)
    (* GetRenderDelegate *) (λ _ _, ())
    (* GetChangeTracker *) (λ _ _, ())
    (* CommitResources *) (λ _ _ (s : list nat), s)
    (* Prepare *)
    (λ (t : nat) (ctx : list (string * list nat)) (_ : nat) (s : list nat),
       (UnorderedMap.subscript_assign "prepared" [t] ctx, s))
    (* TaskExecute *)
    (λ (t : nat) (ctx : list (string * list nat)) (s : list nat),
       (if decide (t = 9) then UnorderedMap.erase HdTokens_drivers ctx else ctx, s)).

(** An engine that already holds a stale drivers entry, over a scene whose
    index has the drivers 4 and 2. *)
Definition sample_world : @World sample_types :=
  @mkWorld sample_types [("drivers", [99]); ("viewport", [640; 480])] [4; 2] [] [].

(** * Properties *)

(** ** The container *)
Section unordered_map_facts.
Import UnorderedMap.
Context {K V : Type} `{!EqDecision K}.
Implicit Types (m : list (K * V)).

Lemma find_None k m : find k m = None ↔ k ∉ keys m.
Proof.
  unfold keys. induction m as [|[k' v] m IH]; simpl.
  - split; [intros _; apply not_elem_of_nil | done].
  - rewrite not_elem_of_cons. destruct (decide (k' = k)) as [->|Hne].
    + split; [done | intros [? _]; done].
    + rewrite IH. split; [intros ?; split; [congruence | done] | intros [_ ?]; done].
Qed.

Lemma find_is_Some k m : is_Some (find k m) ↔ k ∈ keys m.
Proof.
  destruct (find k m) as [v|] eqn:E.
  - split; [intros _ | by eauto].
    destruct (decide (k ∈ keys m)) as [|Hn]; [done|].
    apply find_None in Hn. congruence.
  - apply find_None in E. split; [intros [? ?]; done | done].
Qed.

Lemma find_app k m1 m2 :
  find k (m1 ++ m2) = match find k m1 with Some v => Some v | None => find k m2 end.
Proof.
  induction m1 as [|[k' v] m1 IH]; simpl; [done|].
  destruct (decide (k' = k)); done.
Qed.

Lemma keys_assign_at k v m : keys (assign_at k v m) = keys m.
Proof.
  unfold keys. induction m as [|[k' v'] m IH]; csimpl; [done|].
  destruct (decide (k' = k)); csimpl; [done | by rewrite IH].
Qed.

Lemma find_assign_at k k' v m :
  find k' (assign_at k v m) =
    if decide (k = k')
    then match find k m with Some _ => Some v | None => None end
    else find k' m.
Proof.
  induction m as [|[k0 v0] m IH]; simpl.
  - destruct (decide (k = k')); done.
  - destruct (decide (k0 = k)) as [->|Hne]; simpl.
    + destruct (decide (k = k')); done.
    + rewrite IH. destruct (decide (k0 = k')) as [->|?]; [|done].
      destruct (decide (k = k')); [congruence | done].
Qed.

Lemma find_subscript_assign k k' v m :
  find k' (subscript_assign k v m) = if decide (k = k') then Some v else find k' m.
Proof.
  unfold subscript_assign. destruct (find k m) as [v0|] eqn:E.
  - rewrite find_assign_at, E. done.
  - rewrite find_app. simpl. destruct (decide (k = k')) as [->|?].
    + by rewrite E.
    + destruct (find k' m); done.
Qed.

Lemma keys_subscript_assign k v m :
  keys (subscript_assign k v m) =
    match find k m with Some _ => keys m | None => keys m ++ [k] end.
Proof.
  unfold subscript_assign. destruct (find k m) eqn:E.
  - apply keys_assign_at.
  - unfold keys. by rewrite fmap_app.
Qed.

Lemma unique_keys_snoc k v m :
  unique_keys m → find k m = None → unique_keys (m ++ [(k, v)]).
Proof.
  unfold unique_keys, keys. intros Hm Hk. rewrite fmap_app. simpl.
  apply NoDup_app. split; [done|]. split; [|apply NoDup_singleton].
  intros x Hx ->%list_elem_of_singleton. by apply find_None in Hk.
Qed.

Lemma unique_keys_subscript_assign k v m :
  unique_keys m → unique_keys (subscript_assign k v m).
Proof.
  intros Hm. unfold subscript_assign. destruct (find k m) eqn:E.
  - unfold unique_keys. by rewrite keys_assign_at.
  - by apply unique_keys_snoc.
Qed.

Lemma find_erase k k' m :
  find k' (erase k m) = if decide (k = k') then None else find k' m.
Proof.
  unfold erase. induction m as [|[k0 v0] m IH]; simpl.
  - destruct (decide (k = k')); done.
  - rewrite filter_cons. simpl. destruct (decide (k0 ≠ k)) as [Hne|Heq]; simpl.
    + rewrite IH. destruct (decide (k0 = k')) as [->|?]; [|done].
      destruct (decide (k = k')); [congruence | done].
    + apply dec_stable in Heq. subst k0. rewrite IH.
      destruct (decide (k = k')); done.
Qed.

Lemma unique_keys_erase k m : unique_keys m → unique_keys (erase k m).
Proof.
  unfold unique_keys, keys, erase. induction m as [|[k0 v0] m IH]; simpl; [done|].
  intros [Hk0 Hm]%NoDup_cons. rewrite filter_cons.
  destruct (decide ((k0, v0).1 ≠ k)); simpl; [|by apply IH].
  apply NoDup_cons. split; [|by apply IH].
  intros [[k1 v1] [-> Hin]]%list_elem_of_fmap. simpl in *.
  apply list_elem_of_filter in Hin as [_ Hin].
  apply Hk0, list_elem_of_fmap. by exists (k1, v1).
Qed.

Lemma count_absent k m : k ∉ keys m → count k m = 0.
Proof.
  unfold keys, count. induction m as [|[k0 v0] m IH]; csimpl; [done|].
  intros [Hne Hm]%not_elem_of_cons. rewrite filter_cons. simpl.
  destruct (decide (k0 = k)); [congruence | by apply IH].
Qed.

Lemma count_unique k m : unique_keys m → count k m ≤ 1.
Proof.
  unfold unique_keys, keys. induction m as [|[k0 v0] m IH]; csimpl; [unfold count; simpl; lia|].
  intros [Hk0 Hm]%NoDup_cons. unfold count. rewrite filter_cons. simpl.
  destruct (decide (k0 = k)) as [->|?]; simpl; [|by apply IH].
  apply count_absent in Hk0. unfold count in Hk0. lia.
Qed.

Lemma count_find k m : 0 < count k m ↔ is_Some (find k m).
Proof.
  unfold count. induction m as [|[k0 v0] m IH]; simpl.
  - split; [lia | intros [? ?]; done].
  - rewrite filter_cons. simpl. destruct (decide (k0 = k)); simpl; [|done].
    split; [by eauto | lia].
Qed.
End unordered_map_facts.

(** ** The loops over the task vector *)
Section loops.
Context `{HdTypes} `{!Collaborators}.

Lemma phase_events_cons (call : HdTask → Event) t ts :
  phase_events call (t :: ts) =
    [ReadAt 0; call t] ++ mjoin (imap (λ taskNum t', [ReadAt (S taskNum); call t']) ts).
Proof. unfold phase_events. rewrite imap_cons. done. Qed.

(** A loop whose body reads position [taskNum] of a vector of live tasks
    and calls the task found there visits the tasks from left to right. *)
Lemma for_taskNum_visits
    (call : HdTaskSharedPtr → Eng unit) (ev : HdTask → Event)
    (step : HdTask → HdTaskContext * Scene → HdTaskContext * Scene)
    (Hcall : ∀ t w, call (Some t) w =
       Returned () (mkWorld (step t (_taskContext w, scene w)).1
                            (step t (_taskContext w, scene w)).2
                            (trace w ++ [ev t]) (diagnostics w)))
    (rest : list HdTask) :
  ∀ (pre : list HdTask) (w : World),
    for_taskNum (length pre) (length rest)
      (λ taskNum, task ←' tasks_at (Some <$> (pre ++ rest)) taskNum; call task) w =
    Returned ()
      (mkWorld (run_tasks step rest (_taskContext w, scene w)).1
               (run_tasks step rest (_taskContext w, scene w)).2
               (trace w ++ mjoin (imap (λ n t, [ReadAt (length pre + n); ev t]) rest))
               (diagnostics w)).
Proof.
  induction rest as [|t rest IH]; intros pre w.
  - simpl. unfold eng_ret. rewrite app_nil_r. by destruct w.
  - cbn [length for_taskNum]. unfold eng_bind at 1.
    assert ((Some <$> (pre ++ t :: rest)) !! length pre = Some (Some t)) as Hat.
    { rewrite list_lookup_fmap, lookup_app_r by lia.
      by replace (length pre - length pre) with 0 by lia. }
    unfold eng_bind at 1, tasks_at at 1, eng_bind at 1, emit at 1.
    rewrite Hat. unfold eng_ret at 1. rewrite Hcall. cbn [_taskContext scene trace diagnostics].
    specialize (IH (pre ++ [t])). rewrite length_app in IH. cbn [length] in IH.
    replace (length pre + 1) with (S (length pre)) in IH by lia.
    rewrite <- (assoc_L (++) pre [t] rest) in IH. cbn [app] in IH.
    rewrite IH. cbn [_taskContext scene trace diagnostics run_tasks foldl].
    f_equal. f_equal.
    + by destruct (step t (_taskContext w, scene w)).
    + by destruct (step t (_taskContext w, scene w)).
    + rewrite imap_cons. cbn [mjoin list_join]. rewrite <- !(assoc_L (++)). f_equal.
      replace (length pre + 0) with (length pre) by lia.
      cbn [app]. do 3 f_equal. apply imap_ext. intros n x _. cbn. do 2 f_equal. lia.
Qed.
End loops.

(** ** One call of the primary [Execute], step by step *)
Section execute_facts.
Context `{HdTypes} `{!Collaborators}.

Lemma task_Prepare_live i t w :
  task_Prepare (Some t) i w =
    Returned () (mkWorld (prepare_step i t (_taskContext w, scene w)).1
                         (prepare_step i t (_taskContext w, scene w)).2
                         (trace w ++ [CallPrepare t]) (diagnostics w)).
Proof.
  unfold task_Prepare, prepare_step, eng_bind, deref, eng_ret, emit. simpl.
  by destruct (Prepare t (_taskContext w) i (scene w)).
Qed.

Lemma task_Execute_live t w :
  task_Execute (Some t) w =
    Returned () (mkWorld (execute_step t (_taskContext w, scene w)).1
                         (execute_step t (_taskContext w, scene w)).2
                         (trace w ++ [CallExecute t]) (diagnostics w)).
Proof.
  unfold task_Execute, execute_step, eng_bind, deref, eng_ret, emit. simpl.
  by destruct (TaskExecute t (_taskContext w) (scene w)).
Qed.

Lemma Seed_returns i w :
  Seed (Some i) w =
    Returned () (mkWorld (seeded i w) (scene w) (trace w ++ [CallGetDrivers]) (diagnostics w)).
Proof. done. Qed.

(** With live tasks [ts] in the vector after [SyncAll], the call runs to
    its end, and this is the world it leaves. *)
Lemma Execute_returns (i : HdRenderIndex) (tasks : HdTaskSharedPtrVector) (w : World)
    (ts : list HdTask) :
  synced_tasks i tasks w = Some <$> ts →
  Execute (Some i) (Some tasks) w =
    Returned (Some (Some <$> ts))
      (mkWorld (after_execute i tasks w ts).1 (after_execute i tasks w ts).2
               (trace w ++ execute_events i tasks w ts) (diagnostics w)).
Proof.
  intros Hsync. unfold Execute. unfold eng_bind at 1. rewrite Seed_returns.
  unfold eng_bind at 1, index_SyncAll at 1.
  unfold eng_bind at 1, deref at 1, eng_ret at 1.
  unfold eng_bind at 1, get_taskContext at 1.
  unfold eng_bind at 1, emit at 1.
  cbn [_taskContext scene trace diagnostics].
  unfold after_execute, after_commit, after_prepare, after_sync.
  unfold synced_tasks in Hsync.
  destruct (SyncAll i tasks (seeded i w) (scene w)) as [[tasks1 ctx1] s1] eqn:Esync.
  cbn [fst snd] in *. subst tasks1.
  unfold eng_bind at 1, tasks_size at 1, eng_bind at 1, emit at 1, eng_ret at 1.
  cbn [_taskContext scene trace diagnostics]. rewrite length_fmap.
  unfold eng_bind at 1.
  rewrite (for_taskNum_visits (λ task, task_Prepare task i) CallPrepare (prepare_step i)
             (task_Prepare_live i) ts []).
  cbn [_taskContext scene trace diagnostics length].
  unfold eng_bind at 1, index_GetRenderDelegate at 1.
  unfold eng_bind at 1, deref at 1, eng_ret at 1. unfold eng_bind at 1, emit at 1.
  cbn [_taskContext scene trace diagnostics].
  unfold eng_bind at 1, index_GetChangeTracker at 1.
  unfold eng_bind at 1, deref at 1, eng_ret at 1. unfold eng_bind at 1, emit at 1.
  cbn [_taskContext scene trace diagnostics].
  unfold eng_bind at 1, renderDelegate_CommitResources at 1. unfold eng_bind at 1, emit at 1.
  cbn [_taskContext scene trace diagnostics].
  unfold eng_bind at 1.
  rewrite (for_taskNum_visits task_Execute CallExecute execute_step task_Execute_live ts []).
  cbn [_taskContext scene trace diagnostics length]. unfold eng_ret.
  f_equal. f_equal.
  unfold execute_events, prepare_phase, execute_phase, phase_events, commit_phase.
  rewrite <- !(assoc_L (++)). done.
Qed.
End execute_facts.

(** ** Reading a trace *)
Section trace_facts.
Context `{HdTypes} `{!Collaborators}.

Lemma phase_events_from_imap first call ts :
  phase_events_from first call ts =
    mjoin (imap (λ n t, [ReadAt (first + n); call t]) ts).
Proof.
  revert first. induction ts as [|t ts IH]; intros first; [done|].
  cbn [phase_events_from]. rewrite imap_cons, IH. cbn [mjoin list_join app].
  replace (first + 0) with first by lia. do 3 f_equal.
  apply imap_ext. intros n x _. cbn. do 2 f_equal. lia.
Qed.

Lemma phase_events_from_0 call ts : phase_events call ts = phase_events_from 0 call ts.
Proof. by rewrite phase_events_from_imap. Qed.

Lemma phase_calls_app (evs1 evs2 : list Event) :
  phase_calls (evs1 ++ evs2) = phase_calls evs1 ++ phase_calls evs2.
Proof. apply filter_app. Qed.

Lemma phase_calls_phase_events call ts :
  (∀ t, is_phase_call (call t) = true) →
  phase_calls (phase_events call ts) = call <$> ts.
Proof.
  intros Hcall. rewrite phase_events_from_0. generalize 0.
  induction ts as [|t ts IH]; intros first; [done|].
  cbn [phase_events_from]. unfold phase_calls in *.
  rewrite filter_cons_False by (simpl; congruence).
  rewrite filter_cons_True by apply Hcall.
  by rewrite IH.
Qed.

Lemma prepare_calls_prepare_phase ts : prepare_calls (prepare_phase ts) = ts.
Proof.
  unfold prepare_phase. rewrite phase_events_from_0. generalize 0.
  induction ts as [|t ts IH]; intros first; [done|].
  cbn. f_equal. apply IH.
Qed.



Lemma execute_calls_prepare_phase ts : execute_calls (prepare_phase ts) = [].
Proof.
  unfold prepare_phase. rewrite phase_events_from_0. generalize 0.
  induction ts as [|t ts IH]; intros first; [done|]. cbn. apply IH.
Qed.

Lemma element_reads_phase_events call ts :
  (∀ t, match call t with ReadAt _ => False | _ => True end) →
  element_reads (phase_events call ts) = seq 0 (length ts).
Proof.
  intros Hcall. rewrite phase_events_from_0. generalize 0.
  induction ts as [|t ts IH]; intros first; [done|].
  cbn [phase_events_from length seq]. unfold element_reads in *. cbn [omap list_omap].
  specialize (Hcall t). destruct (call t); try done; by rewrite IH.
Qed.

End trace_facts.

(** ** Malformed calls and path resolution *)
Section entry_points.
Context `{HdTypes} `{!Collaborators}.

(** C3.  With a null index or a null task vector the primary [Execute]
    posts one coding error and returns: no event is added to the trace,
    and the task context, the scene and the vector behind [tasks] are what
    they were. *)
Theorem Execute_null_arguments :
  (∀ (tasks : option HdTaskSharedPtrVector) (w : World),
     Execute None tasks w =
       Returned tasks
         (mkWorld (_taskContext w) (scene w) (trace w)
                  (diagnostics w ++ ["Passed nullptr to HdEngine::Execute()"])))
  ∧ (∀ (index : option HdRenderIndex) (w : World),
     Execute index None w =
       Returned None
         (mkWorld (_taskContext w) (scene w) (trace w)
                  (diagnostics w ++ ["Passed nullptr to HdEngine::Execute()"]))).
Proof.
  split.
  - intros tasks w. done.
  - intros [i|] w; done.
Qed.

(** The resolution loop on a live index: it returns, having looked up
    every non-empty path, reported every path that gave no task, and
    appended the tasks found, in the order of their paths. *)
Lemma resolve_taskPaths_live (i : HdRenderIndex) (taskPaths : list SdfPath) :
  ∀ (tasks : HdTaskSharedPtrVector) (w : World),
    resolve_taskPaths (Some i) taskPaths tasks w =
      Returned (tasks ++ (Some <$> resolved_tasks i (scene w) taskPaths))
        (mkWorld (_taskContext w) (scene w) (trace w ++ lookups taskPaths)
                 (diagnostics w ++ usage_errors i (scene w) taskPaths)).
Proof.
  induction taskPaths as [|p rest IH]; intros tasks w.
  - cbn. unfold eng_ret. rewrite !app_nil_r. by destruct w.
  - cbn [resolve_taskPaths]. unfold resolved_tasks, usage_errors, lookups.
    cbn [omap list_omap]. rewrite filter_cons. unfold resolves_to at 1, usage_error at 1.
    destruct (IsEmpty p) eqn:Ep.
    + unfold eng_bind at 1, TF_CODING_ERROR at 1. rewrite IH.
      cbn [_taskContext scene trace diagnostics].
      rewrite decide_False by done.
      unfold resolved_tasks, usage_errors, lookups. cbn [option_list].
      by rewrite <- (assoc_L (++)).
    + rewrite decide_True by done.
      unfold eng_bind at 1, index_GetTask at 1, eng_bind at 1, deref at 1, eng_ret at 1.
      unfold eng_bind at 1, emit at 1. cbn [_taskContext scene trace diagnostics].
      destruct (GetTask i p (scene w)) as [t|] eqn:Et.
      * rewrite IH. cbn [_taskContext scene trace diagnostics fmap list_fmap app].
        unfold resolved_tasks, usage_errors, lookups. cbn [option_list app].
        rewrite <- !(assoc_L (++)). done.
      * unfold eng_bind at 1, TF_CODING_ERROR at 1. rewrite IH.
        cbn [_taskContext scene trace diagnostics].
        unfold resolved_tasks, usage_errors, lookups, GetText. cbn [option_list app].
        rewrite <- !(assoc_L (++)). done.
Qed.

(** The resolution loop on a null index: empty paths are reported and
    skipped, the first non-empty one dereferences the null pointer. *)
Lemma resolve_taskPaths_null (taskPaths : list SdfPath) :
  ∀ (tasks : HdTaskSharedPtrVector) (w : World),
    resolve_taskPaths None taskPaths tasks w =
      let w' := mkWorld (_taskContext w) (scene w) (trace w)
                  (diagnostics w ++ replicate (leading_empty taskPaths)
                                      "Empty task path given to HdEngine::Execute()") in
      if forallb IsEmpty taskPaths then Returned tasks w'
      else Crashed NullDereference w'.
Proof.
  induction taskPaths as [|p rest IH]; intros tasks w.
  - cbn. unfold eng_ret. rewrite app_nil_r. by destruct w.
  - cbn [resolve_taskPaths forallb leading_empty]. destruct (IsEmpty p) eqn:Ep.
    + unfold eng_bind at 1, TF_CODING_ERROR at 1. rewrite IH.
      cbn [_taskContext scene trace diagnostics andb replicate].
      rewrite <- (assoc_L (++)). done.
    + cbn. rewrite app_nil_r. by destruct w.
Qed.

Lemma leading_empty_all (taskPaths : list SdfPath) :
  forallb IsEmpty taskPaths = true → leading_empty taskPaths = length taskPaths.
Proof.
  induction taskPaths as [|p rest IH]; [done|].
  cbn [forallb leading_empty length]. intros [Ep Erest]%andb_prop.
  rewrite Ep. f_equal. by apply IH.
Qed.

(** C4.  The path overload on a live index is the primary [Execute] on the
    vector of the tasks its paths resolve to, in the order of the paths,
    run after one coding error for every empty path and for every path
    without a task; every path yields either a task or an error.  When no
    path resolves, the vector handed on is empty. *)
Theorem Execute_taskPaths_resolves (i : HdRenderIndex) (taskPaths : list SdfPath)
    (w : World) :
  Execute_taskPaths (Some i) taskPaths w =
    (Execute (Some i) (Some (Some <$> resolved_tasks i (scene w) taskPaths));;' eng_ret ())
      (mkWorld (_taskContext w) (scene w) (trace w ++ lookups taskPaths)
               (diagnostics w ++ usage_errors i (scene w) taskPaths))
  ∧ length (resolved_tasks i (scene w) taskPaths)
      + length (usage_errors i (scene w) taskPaths) = length taskPaths
  ∧ (length (usage_errors i (scene w) taskPaths) = length taskPaths ↔
     resolved_tasks i (scene w) taskPaths = []).
Proof.
  assert (length (resolved_tasks i (scene w) taskPaths)
          + length (usage_errors i (scene w) taskPaths) = length taskPaths) as Hlen.
  { unfold resolved_tasks, usage_errors.
    induction taskPaths as [|p rest IH]; [done|]. cbn [omap list_omap length].
    unfold resolves_to at 1, usage_error at 1.
    destruct (IsEmpty p); [cbn; lia|].
    destruct (GetTask i p (scene w)); cbn; lia. }
  split; [|split; [done|]].
  - unfold Execute_taskPaths. unfold eng_bind at 1. rewrite resolve_taskPaths_live. done.
  - split.
    + intros Hall. apply length_zero_iff_nil. lia.
    + intros Hnil. rewrite Hnil in Hlen. cbn in Hlen. lia.
Qed.

(** C10.  The path overload does not test its index.  On a live index it
    looks up every non-empty path.  On a null index it reaches the null
    test of the primary [Execute], which reports and returns, only when
    every path is empty (or there is none); otherwise the first non-empty
    path dereferences the null index, before any phase has started. *)
Theorem Execute_taskPaths_null_index (taskPaths : list SdfPath) (w : World) :
  Execute_taskPaths None taskPaths w =
    (if forallb IsEmpty taskPaths
     then Returned ()
            (mkWorld (_taskContext w) (scene w) (trace w)
               (diagnostics w
                ++ replicate (length taskPaths) "Empty task path given to HdEngine::Execute()"
                ++ ["Passed nullptr to HdEngine::Execute()"]))
     else Crashed NullDereference
            (mkWorld (_taskContext w) (scene w) (trace w)
               (diagnostics w
                ++ replicate (leading_empty taskPaths)
                     "Empty task path given to HdEngine::Execute()")))
  ∧ (∀ (i : HdRenderIndex) (tasks : HdTaskSharedPtrVector),
       ∃ tasks' w',
         resolve_taskPaths (Some i) taskPaths tasks w = Returned tasks' w'
         ∧ trace w' = trace w ++ (CallGetTask <$> filter (λ p, IsEmpty p = false) taskPaths)).
Proof.
  split.
  - unfold Execute_taskPaths. unfold eng_bind at 1. rewrite resolve_taskPaths_null.
    cbv zeta. destruct (forallb IsEmpty taskPaths) eqn:Eall; [|done].
    cbn. rewrite <- (assoc_L (++)). by rewrite leading_empty_all.
  - intros i tasks. eexists _, _. split; [apply resolve_taskPaths_live|]. done.
Qed.
End entry_points.

(** ** The task context *)
Section task_context.
Context `{HdTypes} `{!Collaborators}.
Import UnorderedMap.

(** [emplace] followed by the overwrite of an entry that was already
    there is an upsert. *)
Lemma SetTaskContextData_returns (id : TfToken) (data : VtValue) (w : World) :
  SetTaskContextData id data w =
    Returned () (mkWorld (subscript_assign id data (_taskContext w)) (scene w)
                         (trace w) (diagnostics w)).
Proof.
  unfold SetTaskContextData, update_taskContext, emplace, subscript_assign.
  by destruct (find id (_taskContext w)).
Qed.

Lemma GetTaskContextData_frame (id : TfToken) (data : option VtValue) (w : World) :
  ∃ r w', GetTaskContextData id data w = Returned r w'
          ∧ _taskContext w' = _taskContext w ∧ scene w' = scene w ∧ trace w' = trace w.
Proof.
  destruct data as [d|]; cbn.
  - unfold eng_bind, get_taskContext, eng_ret.
    destruct (find id (_taskContext w)); by eexists _, w.
  - unfold eng_bind, TF_CODING_ERROR, eng_ret. by eexists _, _.
Qed.

Lemma GetTaskContextData_absent (id : TfToken) (d : VtValue) (w : World) :
  find id (_taskContext w) = None →
  GetTaskContextData id (Some d) w = Returned (false, Some d) w.
Proof.
  intros Hid. cbn. unfold eng_bind, get_taskContext, eng_ret. by rewrite Hid.
Qed.

Lemma run_accessor_returns (a : Accessor) (w : World) :
  ∃ w', run_accessor a w = Returned () w'
        ∧ (unique_keys (_taskContext w) → unique_keys (_taskContext w'))
        ∧ (∀ id, sets_key id a = false →
             find id (_taskContext w) = None → find id (_taskContext w') = None).
Proof.
  destruct a as [id data|id data|id|]; cbn [run_accessor].
  - rewrite SetTaskContextData_returns. eexists. split; [done|]. cbn. split.
    + apply unique_keys_subscript_assign.
    + intros id' Hid' Habs. rewrite find_subscript_assign.
      cbn in Hid'. apply bool_decide_eq_false in Hid'. by rewrite decide_False.
  - destruct (GetTaskContextData_frame id data w) as (r & w' & Hget & Hctx & _).
    unfold eng_bind. rewrite Hget. eexists. split; [done|]. by rewrite Hctx.
  - eexists. split; [done|]. cbn. split.
    + apply unique_keys_erase.
    + intros id' _ Habs. rewrite find_erase, Habs. by destruct (decide (id = id')).
  - eexists. split; [done|]. cbn. split; [intros _; apply NoDup_nil_2 | done].
Qed.

Lemma run_accessors_returns (ops : list Accessor) :
  ∀ w : World,
    ∃ w', run_accessors ops w = Returned () w'
          ∧ (unique_keys (_taskContext w) → unique_keys (_taskContext w'))
          ∧ (∀ id, forallb (λ a, negb (sets_key id a)) ops = true →
               find id (_taskContext w) = None → find id (_taskContext w') = None).
Proof.
  induction ops as [|a ops IH]; intros w.
  - exists w. destruct w. cbn. eauto.
  - destruct (run_accessor_returns a w) as (w1 & Ha & Hu1 & Hf1).
    destruct (IH w1) as (w2 & Hops & Hu2 & Hf2).
    exists w2. cbn [run_accessors]. unfold eng_bind at 1. rewrite Ha. split; [done|].
    split; [eauto|]. intros id. cbn [forallb]. intros [Hid Hrest]%andb_prop Habs.
    apply negb_true_iff in Hid. eauto.
Qed.

(** C6.  The accessors, as callers see them: [Get] after [Set] of the
    same key finds the value that was set; [Get] of a key that no [Set]
    in the engine's history of accessor calls named finds nothing; [Get]
    after [Remove] of the key finds nothing; [Get] after [Clear] finds
    nothing, whatever the key.  A [Get] that finds nothing returns [false]
    and leaves the caller's variable alone. *)
Theorem TaskContextData_contract :
  (∀ (id : TfToken) (v d : VtValue) (w : World),
     ∃ w', (SetTaskContextData id v;;' GetTaskContextData id (Some d)) w
           = Returned (true, Some v) w')
  ∧ (∀ (ops : list Accessor) (id : TfToken) (d : VtValue) (s : Scene),
       forallb (λ a, negb (sets_key id a)) ops = true →
       ∃ w', (run_accessors ops;;' GetTaskContextData id (Some d)) (HdEngine s)
             = Returned (false, Some d) w')
  ∧ (∀ (id : TfToken) (d : VtValue) (w : World),
       ∃ w', (RemoveTaskContextData id;;' GetTaskContextData id (Some d)) w
             = Returned (false, Some d) w')
  ∧ (∀ (id : TfToken) (d : VtValue) (w : World),
       ∃ w', (ClearTaskContextData;;' GetTaskContextData id (Some d)) w
             = Returned (false, Some d) w').
Proof.
  repeat split.
  - intros id v d w. unfold eng_bind. rewrite SetTaskContextData_returns.
    cbn. unfold eng_bind, get_taskContext, eng_ret. cbn.
    rewrite find_subscript_assign, decide_True by done. eauto.
  - intros ops id d s Hops.
    destruct (run_accessors_returns ops (HdEngine s)) as (w1 & Hrun & _ & Hf).
    unfold eng_bind. rewrite Hrun.
    rewrite GetTaskContextData_absent; [eauto|]. by apply Hf.
  - intros id d w. unfold eng_bind, RemoveTaskContextData, update_taskContext.
    rewrite GetTaskContextData_absent; [eauto|]. cbn.
    rewrite find_erase, decide_True by done. done.
  - intros id d w. unfold eng_bind, ClearTaskContextData, update_taskContext.
    rewrite GetTaskContextData_absent; [eauto|]. done.
Qed.

(** C7.  No key occurs twice in the task context.  This holds of a new
    engine, and every accessor and the seeding step of [Execute] keep it.
    [Set] always returns, stores the value under the key, leaves every
    other key as it was, and when the key was present keeps the list of
    keys as it was (the entry is overwritten where it stands). *)
Theorem TaskContext_unique_keys (w : World) :
  unique_keys (_taskContext w) →
  unique_keys (_taskContext (HdEngine (scene w)))
  ∧ (∀ (id : TfToken) (data : VtValue),
       ∃ w', SetTaskContextData id data w = Returned () w'
             ∧ unique_keys (_taskContext w')
             ∧ find id (_taskContext w') = Some data
             ∧ count id (_taskContext w') = 1
             ∧ (∀ id', id' ≠ id → find id' (_taskContext w') = find id' (_taskContext w))
             ∧ (is_Some (find id (_taskContext w)) →
                keys (_taskContext w') = keys (_taskContext w))
             ∧ (find id (_taskContext w) = None →
                keys (_taskContext w') = keys (_taskContext w) ++ [id]))
  ∧ (∀ (id : TfToken) (data : option VtValue),
       ∃ r w', GetTaskContextData id data w = Returned r w'
               ∧ _taskContext w' = _taskContext w)
  ∧ (∀ id : TfToken,
       ∃ w', RemoveTaskContextData id w = Returned () w' ∧ unique_keys (_taskContext w'))
  ∧ (∃ w', ClearTaskContextData w = Returned () w' ∧ unique_keys (_taskContext w'))
  ∧ (∀ i : HdRenderIndex,
       ∃ w', Seed (Some i) w = Returned () w' ∧ unique_keys (_taskContext w'))
  ∧ (∀ ops : list Accessor,
       ∃ w', run_accessors ops w = Returned () w' ∧ unique_keys (_taskContext w')).
Proof.
  intros Hw. split; [apply NoDup_nil_2|]. split.
  { intros id data. rewrite SetTaskContextData_returns. eexists. split; [done|].
    cbn [_taskContext].
    assert (find id (subscript_assign id data (_taskContext w)) = Some data) as Hfind.
    { rewrite find_subscript_assign. by rewrite decide_True. }
    split; [by apply unique_keys_subscript_assign|]. split; [done|]. split.
    - pose proof (count_unique id _ (unique_keys_subscript_assign id data _ Hw)) as Hle.
      assert (0 < count id (subscript_assign id data (_taskContext w)));
        [|lia].
      apply count_find. by rewrite Hfind.
    - split; [|split].
      + intros id' Hne. rewrite find_subscript_assign. by rewrite decide_False.
      + intros [v Hv]. by rewrite keys_subscript_assign, Hv.
      + intros Hv. by rewrite keys_subscript_assign, Hv. }
  split.
  { intros id data. destruct (GetTaskContextData_frame id data w) as (r & w' & ? & ? & _).
    eauto. }
  split.
  { intros id. eexists. split; [done|]. cbn. by apply unique_keys_erase. }
  split.
  { eexists. split; [done|]. apply NoDup_nil_2. }
  split.
  { intros i. rewrite Seed_returns. eexists. split; [done|]. cbn.
    by apply unique_keys_subscript_assign. }
  intros ops. destruct (run_accessors_returns ops w) as (w' & ? & Hu & _). eauto.
Qed.
End task_context.

(** ** The drivers entry *)
Section drivers.
Context `{HdTypes} `{!Collaborators}.
Import UnorderedMap.

Lemma filter_key_absent {V} (k : TfToken) (m : list (TfToken * V)) :
  find k m = None → filter (λ e, e.1 = k) m = [].
Proof.
  induction m as [|[k0 v0] m IH]; [done|]. cbn [find].
  destruct (decide (k0 = k)) as [->|Hne]; [done|]. intros Hm.
  rewrite filter_cons_False by done. by apply IH.
Qed.

Lemma filter_key_subscript_assign {V} (k : TfToken) (v : V) (m : list (TfToken * V)) :
  unique_keys m → filter (λ e, e.1 = k) (subscript_assign k v m) = [(k, v)].
Proof.
  unfold subscript_assign. destruct (find k m) as [v0|] eqn:E.
  - revert E. unfold unique_keys, keys.
    induction m as [|[k0 v0'] m IH]; csimpl; [done|]. intros E [Hk0 Hm]%NoDup_cons.
    destruct (decide (k0 = k)) as [->|Hne].
    + rewrite filter_cons_True by done. f_equal.
      apply filter_key_absent, find_None. done.
    + rewrite filter_cons_False by done. by apply IH.
  - intros _. rewrite filter_app, filter_key_absent by done.
    by rewrite filter_cons_True.
Qed.

Lemma filter_key_subscript_assign_ne {V} (k k' : TfToken) (v : V) (m : list (TfToken * V)) :
  k ≠ k' → filter (λ e, e.1 = k') (subscript_assign k v m) = filter (λ e, e.1 = k') m.
Proof.
  intros Hne. unfold subscript_assign. destruct (find k m) as [v0|] eqn:E.
  - clear E. induction m as [|[k0 v0'] m IH]; [done|]. cbn [assign_at].
    destruct (decide (k0 = k)) as [->|Hk0].
    + by rewrite !filter_cons_False by done.
    + rewrite !filter_cons. cbn [fst]. destruct (decide (k0 = k')); by rewrite IH.
  - rewrite filter_app, filter_cons_False by done. by rewrite app_nil_r.
Qed.

Lemma drivers_entries_run_tasks
    (step : HdTask → HdTaskContext * Scene → HdTaskContext * Scene) (ts : list HdTask) :
  Forall (λ t, keeps_drivers (λ ctx s, (step t (ctx, s)).1)) ts →
  ∀ cs, drivers_entries (run_tasks step ts cs).1 = drivers_entries cs.1.
Proof.
  induction 1 as [|t ts Ht _ IH]; intros [ctx s]; [done|].
  cbn [run_tasks foldl]. fold (run_tasks step ts (step t (ctx, s))).
  rewrite IH. destruct (step t (ctx, s)) as [ctx' s'] eqn:E.
  specialize (Ht ctx s). cbn beta in Ht. by rewrite E in Ht.
Qed.

End drivers.

(** ** The engine on the sample scene *)

(** The path list of the specification's example: the empty path and the
    path without a task are reported, the tasks of "/A" and "/B" run in
    that order. *)
Example Execute_taskPaths_sample :
  ∃ w' : @World sample_types, @Execute_taskPaths sample_types sample (Some 0) [""; "/A"; "/missing"; "/B"]
          sample_world = Returned () w'
        ∧ @prepare_calls sample_types (trace w') = [1; 2]
        ∧ @execute_calls sample_types (trace w') = [1; 2]
        ∧ diagnostics w' =
            ["Empty task path given to HdEngine::Execute()";
             "No task at /missing in render index in HdEngine::Execute()"].
Proof. eexists. split; [vm_compute; reflexivity|]. by vm_compute. Qed.

(** An empty task vector: the seeding, [SyncAll] on the empty vector and
    one [CommitResources]. *)
Example Execute_empty_sample :
  ∃ w' : @World sample_types, @Execute sample_types sample (Some 0) (Some []) sample_world = Returned (Some []) w'
        ∧ trace w' =
            [CallGetDrivers;
             @CallSyncAll sample_types [] [("drivers", [4; 2]); ("viewport", [640; 480])];
             ReadSize 0;
             CallGetRenderDelegate; CallGetChangeTracker; CallCommitResources].
Proof. eexists. split; [vm_compute; reflexivity|]. by vm_compute. Qed.

(** A null entry in the vector is dereferenced by the Prepare loop. *)
Example Execute_null_entry_sample :
  ∃ w' : @World sample_types, @Execute sample_types sample (Some 0) (Some [Some 3; None; Some 5]) sample_world
        = Crashed NullDereference w'.
Proof. eexists. vm_compute. reflexivity. Qed.

Lemma sample_world_unique_keys : UnorderedMap.unique_keys (_taskContext sample_world).
Proof.
  unfold UnorderedMap.unique_keys. cbn.
  apply NoDup_cons. split; [|apply NoDup_singleton].
  by intros ?%list_elem_of_singleton.
Qed.

Lemma TaskContextData_contract_witness :
  forallb (λ a, negb (@sets_key sample_types "b" a))
    [@ASet sample_types "a" [1]; ARemove "a"; AGet "b" None; AClear] = true
  ∧ ∃ w' : @World sample_types, (eng_bind
             (@run_accessors sample_types
                [@ASet sample_types "a" [1]; ARemove "a"; AGet "b" None; AClear])
             (λ _, @GetTaskContextData sample_types "b" (Some [0])))
            (@HdEngine sample_types [4; 2])
          = Returned (false, Some [0]) w'.
Proof.
  split; [reflexivity|].
  apply (proj1 (proj2 (@TaskContextData_contract sample_types sample))).
  reflexivity.
Defined.

Lemma TaskContext_unique_keys_witness :
  UnorderedMap.unique_keys (_taskContext sample_world)
  ∧ ∃ w' : @World sample_types, @SetTaskContextData sample_types "drivers" [7] sample_world = Returned () w'
          ∧ UnorderedMap.unique_keys (_taskContext w')
          ∧ UnorderedMap.find "drivers" (_taskContext w') = Some [7]
          ∧ UnorderedMap.keys (_taskContext w') = ["drivers"; "viewport"].
Proof.
  split; [apply sample_world_unique_keys|].
  destruct (@TaskContext_unique_keys sample_types sample sample_world
              sample_world_unique_keys) as (_ & Hset & _).
  destruct (Hset "drivers" [7]) as (w' & Hret & Hu & Hfind & _ & _ & Hkeys & _).
  exists w'. repeat split; try assumption.
  apply Hkeys. by exists [99].
Defined.

(** C5, as the claim has it, fails when a task touches the entry: task 9
    of the sample erases the drivers entry in its [Execute], and the call
    returns with no drivers entry at all, although the index has the
    drivers 4 and 2. *)
Lemma Execute_drivers_entry_removed :
  ∃ w' : @World sample_types, @Execute sample_types sample (Some 0) (Some [Some 9]) sample_world
          = Returned (Some [Some 9]) w'
        ∧ @GetDrivers sample_types sample 0 (scene sample_world) = [4; 2]
        ∧ UnorderedMap.find HdTokens_drivers (_taskContext w') = None
        ∧ UnorderedMap.find HdTokens_drivers (_taskContext w')
            ≠ Some (@VtValue_of_drivers sample_types sample
                      (@GetDrivers sample_types sample 0 (scene sample_world))).
Proof. eexists. split; [vm_compute; reflexivity|]. by vm_compute. Qed.

(** * Further properties of the engine *)

(** ** Null entries in the task vector *)
Section null_entries.
Context `{HdTypes} `{!Collaborators}.

Lemma for_taskNum_app (body : nat → Eng unit) (a b : nat) :
  ∀ (first : nat) (w : World),
    for_taskNum first (a + b) body w =
      (for_taskNum first a body;;' for_taskNum (first + a) b body) w.
Proof.
  induction a as [|a IH]; intros first w.
  - cbn. unfold eng_bind, eng_ret. by rewrite Nat.add_0_r.
  - cbn [Nat.add for_taskNum]. unfold eng_bind.
    destruct (body first w) as [[] w1|f w1]; [|done].
    rewrite IH. unfold eng_bind. by replace (S first + a) with (first + S a) by lia.
Qed.

(** The loop over any stretch of the vector that holds live tasks. *)
Lemma for_taskNum_visits_at
    (call : HdTaskSharedPtr → Eng unit) (ev : HdTask → Event)
    (step : HdTask → HdTaskContext * Scene → HdTaskContext * Scene)
    (Hcall : ∀ t w, call (Some t) w =
       Returned () (mkWorld (step t (_taskContext w, scene w)).1
                            (step t (_taskContext w, scene w)).2
                            (trace w ++ [ev t]) (diagnostics w)))
    (v : HdTaskSharedPtrVector) (ts : list HdTask) :
  ∀ (first : nat) (w : World),
    (∀ j t, ts !! j = Some t → v !! (first + j) = Some (Some t)) →
    for_taskNum first (length ts) (λ taskNum, task ←' tasks_at v taskNum; call task) w =
    Returned ()
      (mkWorld (run_tasks step ts (_taskContext w, scene w)).1
               (run_tasks step ts (_taskContext w, scene w)).2
               (trace w ++ phase_events_from first ev ts)
               (diagnostics w)).
Proof.
  induction ts as [|t ts IH]; intros first w Hv.
  - cbn. unfold eng_ret. rewrite app_nil_r. by destruct w.
  - cbn [length for_taskNum]. unfold eng_bind at 1.
    pose proof (Hv 0 t eq_refl) as Hat. rewrite Nat.add_0_r in Hat.
    unfold eng_bind at 1, tasks_at at 1, eng_bind at 1, emit at 1.
    rewrite Hat. unfold eng_ret at 1. rewrite Hcall.
    cbn [_taskContext scene trace diagnostics].
    rewrite IH.
    + cbn [_taskContext scene trace diagnostics run_tasks foldl phase_events_from].
      f_equal. f_equal.
      * by destruct (step t (_taskContext w, scene w)).
      * by destruct (step t (_taskContext w, scene w)).
      * rewrite <- !(assoc_L (++)). done.
    + intros j t' Hj. replace (S first + j) with (first + S j) by lia. by apply Hv.
Qed.

(** A vector either holds live tasks only, or has a first null entry. *)
Lemma first_null_entry {A} (v : list (option A)) :
  (∃ ts, v = Some <$> ts) ∨ (∃ pre rest, v = (Some <$> pre) ++ None :: rest).
Proof.
  induction v as [|[a|] v IH].
  - left. by exists [].
  - destruct IH as [[ts ->]|(pre & rest & ->)].
    + left. by exists (a :: ts).
    + right. by exists (a :: pre), rest.
  - right. by exists [], v.
Qed.

Lemma live_or_null_exclusive {A} (ts pre : list A) (rest : list (option A)) :
  Some <$> ts ≠ (Some <$> pre) ++ None :: rest.
Proof.
  revert ts. induction pre as [|a pre IH]; intros [|t ts]; cbn; try done.
  intros [= _ Heq]. by apply (IH ts).
Qed.

(** The Prepare loop stops at the first null entry. *)
Lemma Execute_crashes (i : HdRenderIndex) (tasks : HdTaskSharedPtrVector) (w : World)
    (pre : list HdTask) (rest : HdTaskSharedPtrVector) :
  synced_tasks i tasks w = (Some <$> pre) ++ None :: rest →
  Execute (Some i) (Some tasks) w =
    Crashed NullDereference
      (mkWorld (run_tasks (prepare_step i) pre (after_sync i tasks w)).1
               (run_tasks (prepare_step i) pre (after_sync i tasks w)).2
               (trace w
                ++ [CallGetDrivers; CallSyncAll tasks (seeded i w);
                    ReadSize (length pre + S (length rest))]
                ++ prepare_phase pre ++ [ReadAt (length pre)])
               (diagnostics w)).
Proof.
  intros Hsync. unfold Execute. unfold eng_bind at 1. rewrite Seed_returns.
  unfold eng_bind at 1, index_SyncAll at 1.
  unfold eng_bind at 1, deref at 1, eng_ret at 1.
  unfold eng_bind at 1, get_taskContext at 1.
  unfold eng_bind at 1, emit at 1.
  cbn [_taskContext scene trace diagnostics].
  unfold after_sync. unfold synced_tasks in Hsync.
  destruct (SyncAll i tasks (seeded i w) (scene w)) as [[tasks1 ctx1] s1] eqn:Esync.
  cbn [fst snd] in *. subst tasks1.
  unfold eng_bind at 1, tasks_size at 1, eng_bind at 1, emit at 1, eng_ret at 1.
  cbn [_taskContext scene trace diagnostics].
  rewrite length_app, length_fmap. cbn [length].
  unfold eng_bind at 1. rewrite for_taskNum_app. unfold eng_bind at 1.
  rewrite (for_taskNum_visits_at (λ task, task_Prepare task i) CallPrepare (prepare_step i)
             (task_Prepare_live i) _ pre 0).
  - cbn [_taskContext scene trace diagnostics for_taskNum Nat.add].
    unfold eng_bind at 1, eng_bind at 1, tasks_at at 1, eng_bind at 1, emit at 1.
    cbn [_taskContext scene trace diagnostics].
    rewrite lookup_app_r by (rewrite length_fmap; lia).
    rewrite length_fmap. replace (length pre - length pre) with 0 by lia.
    cbn [lookup list_lookup]. unfold eng_ret at 1.
    unfold task_Prepare, eng_bind, deref, crash.
    f_equal. f_equal. unfold prepare_phase. rewrite phase_events_from_0.
    rewrite <- !(assoc_L (++)). done.
  - intros j t Hj. cbn [Nat.add].
    rewrite lookup_app_l by (rewrite length_fmap; by eapply lookup_lt_Some).
    by rewrite list_lookup_fmap, Hj.
Qed.
End null_entries.

Section outcomes.
Context `{HdTypes} `{!Collaborators}.

Lemma Execute_cases (i : HdRenderIndex) (tasks : HdTaskSharedPtrVector) (w : World) :
  (∃ ts w', synced_tasks i tasks w = Some <$> ts
            ∧ Execute (Some i) (Some tasks) w = Returned (Some (Some <$> ts)) w'
            ∧ trace w' = trace w ++ execute_events i tasks w ts
            ∧ diagnostics w' = diagnostics w)
  ∨ (∃ pre rest w', synced_tasks i tasks w = (Some <$> pre) ++ None :: rest
            ∧ Execute (Some i) (Some tasks) w = Crashed NullDereference w'
            ∧ trace w' = trace w
                ++ [CallGetDrivers; CallSyncAll tasks (seeded i w);
                    ReadSize (length pre + S (length rest))]
                ++ prepare_phase pre ++ [ReadAt (length pre)]
            ∧ diagnostics w' = diagnostics w).
Proof.
  destruct (first_null_entry (synced_tasks i tasks w)) as [[ts Hts]|(pre & rest & Hnull)].
  - left. eexists ts, _. split; [done|]. split; [by apply Execute_returns|]. done.
  - right. eexists pre, rest, _. split; [done|]. split; [by apply Execute_crashes|]. done.
Qed.

Lemma phase_calls_until_null (i : HdRenderIndex) (tasks : HdTaskSharedPtrVector) (w : World)
    (n : nat) (pre : list HdTask) :
  phase_calls ([CallGetDrivers; CallSyncAll tasks (seeded i w); ReadSize n]
               ++ prepare_phase pre ++ [ReadAt (length pre)])
  = [CallSyncAll tasks (seeded i w)] ++ (CallPrepare <$> pre).
Proof.
  rewrite !phase_calls_app. unfold prepare_phase.
  rewrite phase_calls_phase_events by done. cbn. by rewrite app_nil_r.
Qed.

Lemma no_commit_until_null (i : HdRenderIndex) (tasks : HdTaskSharedPtrVector) (w : World)
    (n : nat) (pre : list HdTask) :
  CallCommitResources ∉ [CallGetDrivers; CallSyncAll tasks (seeded i w); ReadSize n]
                         ++ prepare_phase pre ++ [ReadAt (length pre)].
Proof.
  intros Hin.
  assert (CallCommitResources ∈ phase_calls
            ([CallGetDrivers; CallSyncAll tasks (seeded i w); ReadSize n]
             ++ prepare_phase pre ++ [ReadAt (length pre)])) as Hc.
  { apply list_elem_of_filter. done. }
  rewrite phase_calls_until_null in Hc.
  apply elem_of_cons in Hc as [?|Hc]; [done|].
  apply list_elem_of_fmap in Hc as (t & ? & _). done.
Qed.

(** X1.  The primary [Execute] does not test the entries of the vector.  When
    the vector after [SyncAll] has a null entry, the call dies in the
    Prepare loop on the first one: the tasks before it have been prepared,
    in order, and nothing else has happened; in particular neither
    [CommitResources] nor any task's [Execute] is called, and no
    diagnostic is posted. *)
Theorem Execute_null_entry (i : HdRenderIndex) (tasks : HdTaskSharedPtrVector) (w : World)
    (pre : list HdTask) (rest : HdTaskSharedPtrVector) :
  synced_tasks i tasks w = (Some <$> pre) ++ None :: rest →
  ∃ w' evs,
    Execute (Some i) (Some tasks) w = Crashed NullDereference w'
    ∧ trace w' = trace w ++ evs
    ∧ phase_calls evs = [CallSyncAll tasks (seeded i w)] ++ (CallPrepare <$> pre)
    ∧ prepare_calls evs = pre
    ∧ execute_calls evs = []
    ∧ (CallCommitResources ∉ evs)
    ∧ element_reads evs = seq 0 (length pre) ++ [length pre]
    ∧ diagnostics w' = diagnostics w.
Proof.
  intros Hsync. eexists _, _. split; [by apply Execute_crashes|].
  cbn [trace diagnostics]. split; [done|].
  split; [apply phase_calls_until_null|].
  split; [|split; [|split; [apply no_commit_until_null|split; [|done]]]].
  - unfold prepare_calls. rewrite !omap_app. fold (prepare_calls (prepare_phase pre)).
    rewrite prepare_calls_prepare_phase. cbn. by rewrite app_nil_r.
  - unfold execute_calls. rewrite !omap_app. fold (execute_calls (prepare_phase pre)).
    by rewrite execute_calls_prepare_phase.
  - unfold element_reads. rewrite !omap_app. fold (element_reads (prepare_phase pre)).
    unfold prepare_phase. rewrite element_reads_phase_events by done. done.
Qed.

(** X2.  The collaborators enter this development as calls that return
    and of which only [SyncAll] can change the task vector.  Under that
    condition a call of the primary [Execute] with non-null arguments
    either returns, which it does exactly when the vector after [SyncAll]
    holds no null entry, or dies of a null dereference before
    [CommitResources]; the fault is never a read past the end of the
    vector, and the engine itself posts no diagnostic. *)
Theorem Execute_outcome (i : HdRenderIndex) (tasks : HdTaskSharedPtrVector) (w : World) :
  match Execute (Some i) (Some tasks) w with
  | Returned r w' =>
      r = Some (synced_tasks i tasks w)
      ∧ (None ∉ synced_tasks i tasks w)
      ∧ diagnostics w' = diagnostics w
  | Crashed f w' =>
      f = NullDereference
      ∧ None ∈ synced_tasks i tasks w
      ∧ diagnostics w' = diagnostics w
      ∧ ∃ evs, trace w' = trace w ++ evs
               ∧ (CallCommitResources ∉ evs)
               ∧ execute_calls evs = []
  end.
Proof.
  destruct (Execute_cases i tasks w)
    as [(ts & w' & Hs & -> & Ht & Hd)|(pre & rest & w' & Hs & -> & Ht & Hd)].
  - rewrite Hs. split; [done|]. split; [|done].
    intros (t & ? & _)%list_elem_of_fmap. done.
  - split; [done|]. split; [|split; [done|]].
    + rewrite Hs. apply elem_of_app. right. apply elem_of_cons. by left.
    + eexists. split; [exact Ht|]. split; [apply no_commit_until_null|].
      unfold execute_calls. rewrite !omap_app. fold (execute_calls (prepare_phase pre)).
      by rewrite execute_calls_prepare_phase.
Qed.

(** X3.  The path overload hands non-null entries only to the primary
    [Execute].  If a call of it dies, it dies of a null dereference: of
    the null index at a non-empty path, or of a null entry that [SyncAll]
    itself put into the vector. *)
Theorem Execute_taskPaths_crash (index : option HdRenderIndex) (taskPaths : list SdfPath)
    (w : World) (f : Fault) (w' : World) :
  Execute_taskPaths index taskPaths w = Crashed f w' →
  f = NullDereference
  ∧ (match index with
     | None => forallb IsEmpty taskPaths = false ∧ trace w' = trace w
     | Some i =>
         None ∈ synced_tasks i (Some <$> resolved_tasks i (scene w) taskPaths) w
     end).
Proof.
  unfold Execute_taskPaths. unfold eng_bind at 1. destruct index as [i|].
  - rewrite resolve_taskPaths_live. cbn [app]. unfold eng_bind.
    match goal with |- context [Execute (Some i) (Some ?v) ?w1] =>
      pose proof (Execute_outcome_aux := Execute_cases i v w1) end.
    destruct Execute_outcome_aux
      as [(ts & w2 & Hs & -> & _)|(pre & rest & w2 & Hs & -> & _)]; [done|].
    intros [= <- <-]. split; [done|].
    unfold synced_tasks, seeded in *. cbn [_taskContext scene] in Hs. rewrite Hs.
    apply elem_of_app. right. apply elem_of_cons. by left.
  - rewrite resolve_taskPaths_null. cbv zeta.
    destruct (forallb IsEmpty taskPaths); [done|]. by intros [= <- <-].
Qed.
End outcomes.

(** ** Calls in sequence *)
Section sequences.
Context `{HdTypes} `{!Collaborators}.
Import UnorderedMap.

Lemma phase_calls_execute_events (i : HdRenderIndex) (tasks : HdTaskSharedPtrVector)
    (w : World) (ts : list HdTask) :
  phase_calls (execute_events i tasks w ts) =
    [CallSyncAll tasks (seeded i w)] ++ (CallPrepare <$> ts)
    ++ [CallCommitResources] ++ (CallExecute <$> ts).
Proof.
  unfold execute_events. rewrite !phase_calls_app.
  unfold prepare_phase, execute_phase. by rewrite !phase_calls_phase_events by done.
Qed.

Lemma phase_calls_lookups (taskPaths : list SdfPath) : phase_calls (lookups taskPaths) = [].
Proof.
  unfold lookups, phase_calls.
  induction (filter (λ p, IsEmpty p = false) taskPaths) as [|p ps IH]; [done|].
  cbn [fmap list_fmap]. by rewrite filter_cons_False by (cbn; congruence).
Qed.

(** X4.  The path overload from end to end, on a live index: all lookups come
    first, one per non-empty path and in path order; then the phases run
    on the tasks found.  The diagnostics posted are those of the
    resolution and no others. *)
Theorem Execute_taskPaths_protocol (i : HdRenderIndex) (taskPaths : list SdfPath)
    (w : World) (ts : list HdTask) :
  synced_tasks i (Some <$> resolved_tasks i (scene w) taskPaths) w = Some <$> ts →
  ∃ w' evs,
    Execute_taskPaths (Some i) taskPaths w = Returned () w'
    ∧ trace w' = trace w ++ lookups taskPaths ++ evs
    ∧ phase_calls (lookups taskPaths) = []
    ∧ phase_calls evs =
        [CallSyncAll (Some <$> resolved_tasks i (scene w) taskPaths) (seeded i w)]
        ++ (CallPrepare <$> ts) ++ [CallCommitResources] ++ (CallExecute <$> ts)
    ∧ diagnostics w' = diagnostics w ++ usage_errors i (scene w) taskPaths.
Proof.
  intros Hsync.
  eexists _, (execute_events i (Some <$> resolved_tasks i (scene w) taskPaths) w ts).
  split.
  - unfold Execute_taskPaths. unfold eng_bind at 1. rewrite resolve_taskPaths_live.
    cbn [app]. unfold eng_bind at 1.
    rewrite (Execute_returns i _ _ ts) by exact Hsync. done.
  - cbn [trace diagnostics]. split; [by rewrite <- (assoc_L (++))|].
    split; [apply phase_calls_lookups|]. split; [apply phase_calls_execute_events|done].
Qed.

Lemma find_filter_key {V} (k : TfToken) (m : list (TfToken * V)) :
  find k m = find k (filter (λ e, e.1 = k) m).
Proof.
  induction m as [|[k0 v0] m IH]; [done|]. cbn [find]. rewrite filter_cons. cbn [fst].
  destruct (decide (k0 = k)) as [->|Hne]; [|done].
  cbn [find]. by rewrite decide_True.
Qed.

End sequences.

(** ** How the accessors compose *)
Section accessor_facts.
Context `{HdTypes} `{!Collaborators}.
Import UnorderedMap.

Lemma erase_absent {V} (k : TfToken) (m : list (TfToken * V)) :
  find k m = None → erase k m = m.
Proof.
  unfold erase. induction m as [|[k0 v0] m IH]; [done|]. cbn [find].
  destruct (decide (k0 = k)) as [->|Hne]; [done|]. intros Hm.
  rewrite filter_cons_True by done. by rewrite IH.
Qed.

Lemma erase_assign_at {V} (k : TfToken) (v : V) (m : list (TfToken * V)) :
  erase k (assign_at k v m) = erase k m.
Proof.
  unfold erase. induction m as [|[k0 v0] m IH]; [done|]. cbn [assign_at].
  destruct (decide (k0 = k)) as [->|Hne].
  - by rewrite !filter_cons_False by (cbn; intros Hk; by apply Hk).
  - rewrite !filter_cons_True by done. by rewrite IH.
Qed.

Lemma erase_subscript_assign {V} (k : TfToken) (v : V) (m : list (TfToken * V)) :
  erase k (subscript_assign k v m) = erase k m.
Proof.
  unfold subscript_assign. destruct (find k m); [apply erase_assign_at|].
  unfold erase. rewrite filter_app.
  rewrite (filter_cons_False _ (k, v)) by (cbn; intros Hk; by apply Hk).
  by rewrite app_nil_r.
Qed.

Lemma assign_at_assign_at {V} (k : TfToken) (v v' : V) (m : list (TfToken * V)) :
  assign_at k v' (assign_at k v m) = assign_at k v' m.
Proof.
  induction m as [|[k0 v0] m IH]; [done|]. cbn [assign_at].
  destruct (decide (k0 = k)) as [->|Hne]; cbn [assign_at].
  - by rewrite decide_True.
  - by rewrite decide_False, IH.
Qed.

Lemma assign_at_snoc {V} (k : TfToken) (v v' : V) (m : list (TfToken * V)) :
  find k m = None → assign_at k v' (m ++ [(k, v)]) = m ++ [(k, v')].
Proof.
  induction m as [|[k0 v0] m IH]; cbn [find app assign_at].
  - intros _. by rewrite decide_True.
  - destruct (decide (k0 = k)); [done|]. intros Hm. by rewrite IH.
Qed.

Lemma subscript_assign_twice {V} (k : TfToken) (v v' : V) (m : list (TfToken * V)) :
  subscript_assign k v' (subscript_assign k v m) = subscript_assign k v' m.
Proof.
  unfold subscript_assign at 2 3. destruct (find k m) as [v0|] eqn:E.
  - unfold subscript_assign. rewrite find_assign_at, decide_True, E by done.
    apply assign_at_assign_at.
  - unfold subscript_assign. rewrite find_app, E. cbn [find].
    rewrite decide_True by done. by apply assign_at_snoc.
Qed.

Lemma erase_erase {V} (k k' : TfToken) (m : list (TfToken * V)) :
  erase k (erase k' m) = erase k' (erase k m).
Proof.
  unfold erase. rewrite !list_filter_filter. apply list_filter_iff. intros e. tauto.
Qed.

Lemma erase_idemp {V} (k : TfToken) (m : list (TfToken * V)) :
  erase k (erase k m) = erase k m.
Proof.
  unfold erase. rewrite list_filter_filter. apply list_filter_iff. intros e. tauto.
Qed.

Lemma length_erase {V} (k : TfToken) (m : list (TfToken * V)) :
  length (erase k m) + count k m = length m.
Proof.
  unfold erase, count. induction m as [|[k0 v0] m IH]; [done|].
  rewrite !filter_cons. cbn [fst].
  destruct (decide (k0 = k)) as [->|Hne].
  - rewrite decide_False by (intros Hk; by apply Hk). cbn [length]. lia.
  - rewrite decide_True by done. cbn [length]. lia.
Qed.

(** X9.  The entry list is a finite map to its clients: after any history of
    accessor calls, what a lookup of a key finds is what the same history
    leaves in a one-cell store for that key ([Set] of the key writes the
    cell, [Remove] of the key and [Clear] empty it, everything else leaves
    it).  The accessors touch neither the scene nor the trace, and every
    history runs to its end. *)
Theorem accessors_refine_map (ops : list Accessor) :
  ∀ (w : World) (id : TfToken),
    ∃ w', run_accessors ops w = Returned () w'
          ∧ find id (_taskContext w') = lookup_after id ops (find id (_taskContext w))
          ∧ scene w' = scene w ∧ trace w' = trace w.
Proof.
  induction ops as [|a ops IH]; intros w id.
  - exists w. by destruct w.
  - cbn [run_accessors lookup_after foldl]. unfold eng_bind at 1.
    assert (∃ w1, run_accessor a w = Returned () w1
                  ∧ find id (_taskContext w1) = accessor_effect id a (find id (_taskContext w))
                  ∧ scene w1 = scene w ∧ trace w1 = trace w) as (w1 & -> & Hf & Hs & Ht).
    { destruct a as [id' data|id' data|id'|]; cbn [run_accessor accessor_effect].
      - rewrite SetTaskContextData_returns. eexists. split; [done|].
        cbn [_taskContext scene trace]. by rewrite find_subscript_assign.
      - destruct (GetTaskContextData_frame id' data w) as (r & w1 & Hget & Hctx & Hs & Ht).
        unfold eng_bind. rewrite Hget. eexists. split; [done|]. by rewrite Hctx.
      - eexists. split; [done|]. cbn [_taskContext scene trace]. by rewrite find_erase.
      - eexists. split; [done|]. done. }
    destruct (IH w1 id) as (w' & Hrun & Hf' & Hs' & Ht').
    exists w'. split; [done|]. fold (lookup_after id ops). rewrite Hf', Hf.
    split; [done|]. split; congruence.
Qed.

(** X10.  [RemoveTaskContextData] of a key that is not in the context changes
    nothing at all. *)
Theorem RemoveTaskContextData_absent (id : TfToken) (w : World) :
  find id (_taskContext w) = None →
  RemoveTaskContextData id w = Returned () w.
Proof.
  intros Hid. unfold RemoveTaskContextData, update_taskContext.
  rewrite erase_absent by done. by destruct w.
Qed.

(** X11.  [RemoveTaskContextData] undoes [SetTaskContextData]: setting a key and
    then removing it leaves what removing alone leaves, which is the
    context as it was when the key was not in it. *)
Theorem SetTaskContextData_then_Remove (id : TfToken) (data : VtValue) (w : World) :
  (SetTaskContextData id data;;' RemoveTaskContextData id) w = RemoveTaskContextData id w
  ∧ (find id (_taskContext w) = None →
     (SetTaskContextData id data;;' RemoveTaskContextData id) w = Returned () w).
Proof.
  assert ((SetTaskContextData id data;;' RemoveTaskContextData id) w
          = RemoveTaskContextData id w) as Heq.
  { unfold eng_bind. rewrite SetTaskContextData_returns.
    unfold RemoveTaskContextData, update_taskContext. cbn [_taskContext scene trace diagnostics].
    by rewrite erase_subscript_assign. }
  split; [done|]. intros Hid. rewrite Heq.
  unfold RemoveTaskContextData, update_taskContext.
  rewrite erase_absent by done. by destruct w.
Qed.

(** X12.  The last [SetTaskContextData] of a key wins, and leaves no trace of
    the one before it: the entry keeps its place and the context is the
    one a single call would have produced. *)
Theorem SetTaskContextData_twice (id : TfToken) (data data' : VtValue) (w : World) :
  (SetTaskContextData id data;;' SetTaskContextData id data') w
  = SetTaskContextData id data' w.
Proof.
  unfold eng_bind. rewrite !SetTaskContextData_returns.
  cbn [_taskContext scene trace diagnostics]. by rewrite subscript_assign_twice.
Qed.

(** X13.  [RemoveTaskContextData] takes away the entries of its key and nothing
    else: every other key is found as before and the context shrinks by
    the number of entries the key had.  Removing twice is removing once,
    and removals of two keys can be done in either order. *)
Theorem RemoveTaskContextData_frame (id : TfToken) (w : World) :
  (∃ w', RemoveTaskContextData id w = Returned () w'
         ∧ find id (_taskContext w') = None
         ∧ (∀ id', id' ≠ id → find id' (_taskContext w') = find id' (_taskContext w))
         ∧ length (_taskContext w') + count id (_taskContext w) = length (_taskContext w)
         ∧ _taskContext w' `sublist_of` _taskContext w
         ∧ scene w' = scene w ∧ trace w' = trace w ∧ diagnostics w' = diagnostics w)
  ∧ (RemoveTaskContextData id;;' RemoveTaskContextData id) w = RemoveTaskContextData id w
  ∧ (∀ id', (RemoveTaskContextData id;;' RemoveTaskContextData id') w
            = (RemoveTaskContextData id';;' RemoveTaskContextData id) w).
Proof.
  split; [|split].
  - eexists. split; [done|]. cbn [_taskContext scene trace diagnostics].
    split; [by rewrite find_erase, decide_True|].
    split; [intros id' Hne; by rewrite find_erase, decide_False|].
    split; [apply length_erase|]. split; [apply sublist_filter|done].
  - unfold eng_bind, RemoveTaskContextData, update_taskContext.
    cbn [_taskContext scene trace diagnostics]. by rewrite erase_idemp.
  - intros id'. unfold eng_bind, RemoveTaskContextData, update_taskContext.
    cbn [_taskContext scene trace diagnostics]. by rewrite erase_erase.
Qed.

(** X14.  [GetTaskContextData] only reads.  It answers [true] exactly when the
    out-pointer is not null and the key is in the context; then the
    caller's variable receives the stored value, and otherwise it is left
    as it was.  A null out-pointer is reported and answered with [false]
    whether or not the key is there; without it the world is unchanged. *)
Theorem GetTaskContextData_reads (id : TfToken) (data : option VtValue) (w : World) :
  ∃ found out w',
    GetTaskContextData id data w = Returned (found, out) w'
    ∧ _taskContext w' = _taskContext w ∧ scene w' = scene w ∧ trace w' = trace w
    ∧ (found = true ↔ is_Some data ∧ is_Some (find id (_taskContext w)))
    ∧ out = (if found then find id (_taskContext w) else data)
    ∧ (match data with
       | Some _ => w' = w
       | None => ∃ msg, diagnostics w' = diagnostics w ++ [msg]
       end).
Proof.
  destruct data as [d|]; cbn [GetTaskContextData].
  - unfold eng_bind, get_taskContext.
    destruct (find id (_taskContext w)) as [v|] eqn:E; unfold eng_ret.
    + eexists true, _, w. repeat split; eauto.
    + eexists false, _, w. repeat split; try done.
      intros [_ [? ?]]. done.
  - unfold eng_bind, TF_CODING_ERROR, eng_ret. eexists false, _, _.
    repeat split; try done; [intros [[? ?] _]; done | by eexists].
Qed.
End accessor_facts.

(** ** Key uniqueness across a whole call *)
Section invariant.
Context `{HdTypes} `{!Collaborators}.
Import UnorderedMap.

Lemma run_tasks_invariant (P : HdTaskContext → Prop)
    (step : HdTask → HdTaskContext * Scene → HdTaskContext * Scene) (ts : list HdTask) :
  Forall (λ t, ∀ ctx s, P ctx → P (step t (ctx, s)).1) ts →
  ∀ cs, P cs.1 → P (run_tasks step ts cs).1.
Proof.
  induction 1 as [|t ts Ht _ IH]; intros [ctx s] Hcs; [done|].
  cbn [run_tasks foldl]. fold (run_tasks step ts (step t (ctx, s))).
  apply IH. by apply Ht.
Qed.

(** X8.  A call of the primary [Execute] that returns leaves a context with
    unique keys when it found one, as long as [SyncAll] and the tasks it
    called keep keys unique on their part: the engine's own write, the
    seeding, never adds a second entry for a key. *)
Theorem Execute_keeps_unique_keys (i : HdRenderIndex) (tasks : HdTaskSharedPtrVector)
    (w : World) (ts : list HdTask) :
  unique_keys (_taskContext w) →
  synced_tasks i tasks w = Some <$> ts →
  (∀ ctx s, unique_keys ctx → unique_keys (SyncAll i tasks ctx s).1.2) →
  Forall (λ t, ∀ ctx s, unique_keys ctx → unique_keys (Prepare t ctx i s).1) ts →
  Forall (λ t, ∀ ctx s, unique_keys ctx → unique_keys (TaskExecute t ctx s).1) ts →
  ∃ w', Execute (Some i) (Some tasks) w = Returned (Some (Some <$> ts)) w'
        ∧ unique_keys (_taskContext w')
        ∧ count HdTokens_drivers (_taskContext w') ≤ 1.
Proof.
  intros Hw Hsync Hs Hp He. eexists. split; [by apply Execute_returns|].
  cbn [_taskContext].
  assert (unique_keys (after_execute i tasks w ts).1) as Hu.
  { unfold after_execute. apply (run_tasks_invariant unique_keys); [done|].
    unfold after_commit. cbn [fst].
    unfold after_prepare. apply (run_tasks_invariant unique_keys); [done|].
    unfold after_sync. cbn [fst]. apply Hs.
    unfold seeded. by apply unique_keys_subscript_assign. }
  split; [done|]. by apply count_unique.
Qed.
End invariant.

(** ** The further properties on the sample scene *)

Lemma Execute_null_entry_witness :
  @synced_tasks sample_types sample 0 [Some 3; None; Some 5] sample_world
    = (Some <$> [3]) ++ None :: [Some 5]
  ∧ ∃ (w' : @World sample_types) (evs : list (@Event sample_types)),
      @Execute sample_types sample (Some 0) (Some [Some 3; None; Some 5]) sample_world
        = Crashed NullDereference w'
      ∧ trace w' = trace sample_world ++ evs
      ∧ prepare_calls evs = [3]
      ∧ execute_calls evs = []
      ∧ element_reads evs = [0; 1].
Proof.
  split; [reflexivity|].
  destruct (@Execute_null_entry sample_types sample 0 [Some 3; None; Some 5] sample_world
              [3] [Some 5] eq_refl)
    as (w' & evs & Hc & Ht & _ & Hp & He & _ & Hr & _).
  exists w', evs. repeat split; assumption.
Defined.

Lemma Execute_taskPaths_crash_witness :
  @Execute_taskPaths sample_types sample None [""; "/A"] sample_world
    = Crashed NullDereference
        (@mkWorld sample_types (_taskContext sample_world) (scene sample_world) []
           ["Empty task path given to HdEngine::Execute()"])
  ∧ NullDereference = NullDereference
  ∧ forallb IsEmpty [""; "/A"] = false.
Proof.
  split; [reflexivity|].
  destruct (@Execute_taskPaths_crash sample_types sample None [""; "/A"] sample_world
              NullDereference _ eq_refl) as (Hf & Hall & _).
  split; assumption.
Defined.

Lemma Execute_taskPaths_protocol_witness :
  @synced_tasks sample_types sample 0
    (Some <$> @resolved_tasks sample_types sample 0 (scene sample_world)
                [""; "/A"; "/missing"; "/B"])
    sample_world = Some <$> [1; 2]
  ∧ ∃ (w' : @World sample_types) (evs : list (@Event sample_types)),
      @Execute_taskPaths sample_types sample (Some 0) [""; "/A"; "/missing"; "/B"]
        sample_world = Returned () w'
      ∧ trace w' = trace sample_world
          ++ [CallGetTask "/A"; CallGetTask "/missing"; CallGetTask "/B"] ++ evs
      ∧ phase_calls evs =
          [@CallSyncAll sample_types [Some 1; Some 2]
             (@seeded sample_types sample 0 sample_world)]
          ++ (CallPrepare <$> [1; 2]) ++ [CallCommitResources] ++ (CallExecute <$> [1; 2])
      ∧ diagnostics w' =
          ["Empty task path given to HdEngine::Execute()";
           "No task at /missing in render index in HdEngine::Execute()"].
Proof.
  split; [reflexivity|].
  destruct (@Execute_taskPaths_protocol sample_types sample 0
              [""; "/A"; "/missing"; "/B"] sample_world [1; 2] eq_refl)
    as (w' & evs & Hr & Ht & _ & Hp & Hd).
  exists w', evs. repeat split; assumption.
Defined.

Lemma RemoveTaskContextData_absent_witness :
  UnorderedMap.find "missing" (_taskContext sample_world) = None
  ∧ @RemoveTaskContextData sample_types "missing" sample_world = Returned () sample_world.
Proof.
  split; [reflexivity|].
  apply (@RemoveTaskContextData_absent sample_types sample "missing" sample_world). reflexivity.
Defined.

Lemma SetTaskContextData_then_Remove_witness :
  UnorderedMap.find "camera" (_taskContext sample_world) = None
  ∧ (eng_bind (@SetTaskContextData sample_types "camera" [1])
       (λ _, @RemoveTaskContextData sample_types "camera")) sample_world
    = Returned () sample_world.
Proof.
  split; [reflexivity|].
  apply (proj2 (@SetTaskContextData_then_Remove sample_types sample "camera" [1] sample_world)).
  reflexivity.
Defined.

Lemma Execute_keeps_unique_keys_witness :
  UnorderedMap.unique_keys (_taskContext sample_world)
  ∧ @synced_tasks sample_types sample 0 [Some 3; Some 9] sample_world = Some <$> [3; 9]
  ∧ ∃ w' : @World sample_types,
      @Execute sample_types sample (Some 0) (Some [Some 3; Some 9]) sample_world
        = Returned (Some (Some <$> [3; 9])) w'
      ∧ UnorderedMap.unique_keys (_taskContext w')
      ∧ UnorderedMap.count HdTokens_drivers (_taskContext w') ≤ 1.
Proof.
  split; [apply sample_world_unique_keys|]. split; [reflexivity|].
  apply (@Execute_keeps_unique_keys sample_types sample 0 [Some 3; Some 9] sample_world
           [3; 9] sample_world_unique_keys eq_refl).
  - intros ctx s Hu. exact Hu.
  - repeat constructor; intros ctx s Hu; by apply @unique_keys_subscript_assign.
  - repeat constructor; intros ctx s Hu; cbn;
      [exact Hu | by apply @unique_keys_erase].
Defined.

(** * The primary [Execute], for every call with non-null arguments *)

(** ** The call, whatever the vector holds *)
Section every_call.
Context `{HdTypes} `{!Collaborators}.
Import UnorderedMap.

Lemma live_prefix_fmap (ts : list HdTask) : live_prefix (Some <$> ts) = ts.
Proof. induction ts as [|t ts IH]; [done|]. cbn. by rewrite IH. Qed.

Lemma all_live_fmap (ts : list HdTask) : all_live (Some <$> ts) = true.
Proof. induction ts as [|t ts IH]; [done|]. cbn. apply IH. Qed.

Lemma live_prefix_null (pre : list HdTask) (rest : HdTaskSharedPtrVector) :
  live_prefix ((Some <$> pre) ++ None :: rest) = pre.
Proof. induction pre as [|t pre IH]; [done|]. cbn. by rewrite IH. Qed.

Lemma all_live_null (pre : list HdTask) (rest : HdTaskSharedPtrVector) :
  all_live ((Some <$> pre) ++ None :: rest) = false.
Proof. induction pre as [|t pre IH]; [done|]. cbn. apply IH. Qed.


Lemma length_live_prefix (v : HdTaskSharedPtrVector) : length (live_prefix v) ≤ length v.
Proof. induction v as [|[t0|] v IH]; cbn; lia. Qed.


(** The shape of a vector: live tasks only, or live tasks up to a first
    null entry. *)
Lemma vector_shape (v : HdTaskSharedPtrVector) :
  if all_live v then v = Some <$> live_prefix v
  else ∃ rest, v = (Some <$> live_prefix v) ++ None :: rest.
Proof.
  destruct (first_null_entry v) as [[ts ->]|(pre & rest & ->)].
  - by rewrite all_live_fmap, live_prefix_fmap.
  - rewrite all_live_null, live_prefix_null. by exists rest.
Qed.

(** The outcome of every call with non-null arguments. *)
Lemma Execute_total (i : HdRenderIndex) (tasks : HdTaskSharedPtrVector) (w : World) :
  Execute (Some i) (Some tasks) w =
    if all_live (synced_tasks i tasks w)
    then Returned (Some (synced_tasks i tasks w))
           (mkWorld (after_execute i tasks w (live_prefix (synced_tasks i tasks w))).1
                    (after_execute i tasks w (live_prefix (synced_tasks i tasks w))).2
                    (trace w ++ call_events i tasks w) (diagnostics w))
    else Crashed NullDereference
           (mkWorld (run_tasks (prepare_step i) (live_prefix (synced_tasks i tasks w))
                       (after_sync i tasks w)).1
                    (run_tasks (prepare_step i) (live_prefix (synced_tasks i tasks w))
                       (after_sync i tasks w)).2
                    (trace w ++ call_events i tasks w) (diagnostics w)).
Proof.
  pose proof (vector_shape (synced_tasks i tasks w)) as Hshape.
  unfold call_events. cbv zeta.
  destruct (all_live (synced_tasks i tasks w)) eqn:Elive.
  - rewrite (Execute_returns i tasks w (live_prefix (synced_tasks i tasks w))) by done.
    rewrite <- Hshape. do 3 f_equal. unfold execute_events.
    pose proof (f_equal length Hshape) as Hlen. rewrite length_fmap in Hlen.
    by rewrite Hlen.
  - destruct Hshape as [rest Hrest].
    rewrite (Execute_crashes i tasks w (live_prefix (synced_tasks i tasks w)) rest) by done.
    pose proof (f_equal length Hrest) as Hlen.
    rewrite length_app, length_fmap in Hlen. cbn [length] in Hlen.
    by rewrite Hlen.
Qed.

Lemma Execute_trace (i : HdRenderIndex) (tasks : HdTaskSharedPtrVector) (w : World) :
  trace (world_of (Execute (Some i) (Some tasks) w)) = trace w ++ call_events i tasks w
  ∧ diagnostics (world_of (Execute (Some i) (Some tasks) w)) = diagnostics w.
Proof.
  rewrite Execute_total. by destruct (all_live (synced_tasks i tasks w)).
Qed.

Lemma phase_calls_call_events (i : HdRenderIndex) (tasks : HdTaskSharedPtrVector)
    (w : World) :
  phase_calls (call_events i tasks w) =
    [CallSyncAll tasks (seeded i w)]
    ++ (CallPrepare <$> live_prefix (synced_tasks i tasks w))
    ++ (if all_live (synced_tasks i tasks w)
        then [CallCommitResources] ++ (CallExecute <$> live_prefix (synced_tasks i tasks w))
        else []).
Proof.
  unfold call_events. cbv zeta. rewrite !phase_calls_app.
  unfold prepare_phase at 1. rewrite phase_calls_phase_events by done.
  destruct (all_live (synced_tasks i tasks w)).
  - rewrite phase_calls_app. unfold execute_phase.
    by rewrite phase_calls_phase_events by done.
  - done.
Qed.




End every_call.

(** ** The phase protocol *)
Section protocol.
Context `{HdTypes} `{!Collaborators}.
Import UnorderedMap.

(** C1, as the code has it.  Every call of the primary [Execute] with a
    non-null index and a non-null task vector makes one [SyncAll] call, on
    the vector as passed and on the seeded task context, and goes on with
    the vector as [SyncAll] left it.  When no entry of that vector is null
    the call makes one [Prepare] call per task, then one
    [CommitResources] call, then one [Execute] call per task, in this
    order, and returns.  When an entry is null the call makes the
    [Prepare] calls for the tasks before the first null entry and dies
    dereferencing it, with no [CommitResources] and no [Execute] call.
    When the vector is empty after [SyncAll], the phase calls are
    [SyncAll] and [CommitResources] alone. *)
Theorem Execute_phase_protocol (i : HdRenderIndex) (tasks : HdTaskSharedPtrVector)
    (w : World) :
  ∃ evs,
    trace (world_of (Execute (Some i) (Some tasks) w)) = trace w ++ evs
    ∧ phase_calls evs =
        [CallSyncAll tasks (seeded i w)]
        ++ (CallPrepare <$> live_prefix (synced_tasks i tasks w))
        ++ (if all_live (synced_tasks i tasks w)
            then [CallCommitResources]
                 ++ (CallExecute <$> live_prefix (synced_tasks i tasks w))
            else [])
    ∧ (if all_live (synced_tasks i tasks w)
       then synced_tasks i tasks w = Some <$> live_prefix (synced_tasks i tasks w)
            ∧ ∃ w', Execute (Some i) (Some tasks) w
                    = Returned (Some (synced_tasks i tasks w)) w'
       else (∃ rest, synced_tasks i tasks w
                     = (Some <$> live_prefix (synced_tasks i tasks w)) ++ None :: rest)
            ∧ ∃ w', Execute (Some i) (Some tasks) w = Crashed NullDereference w')
    ∧ (synced_tasks i tasks w = [] →
       phase_calls evs = [CallSyncAll tasks (seeded i w); CallCommitResources]
       ∧ ∃ w', Execute (Some i) (Some tasks) w = Returned (Some []) w')
    ∧ find HdTokens_drivers (seeded i w) =
        Some (VtValue_of_drivers (GetDrivers i (scene w))).
Proof.
  exists (call_events i tasks w).
  split; [apply Execute_trace|]. split; [apply phase_calls_call_events|].
  split; [|split].
  - pose proof (vector_shape (synced_tasks i tasks w)) as Hshape.
    rewrite Execute_total.
    destruct (all_live (synced_tasks i tasks w)); (split; [done | by eexists]).
  - intros Hnil. rewrite phase_calls_call_events, Execute_total, Hnil. cbn.
    split; [done | by eexists].
  - unfold seeded. by rewrite find_subscript_assign, decide_True.
Qed.



End protocol.

(** ** The drivers entry and the calls around a call *)
Section around_a_call.
Context `{HdTypes} `{!Collaborators}.
Import UnorderedMap.

Lemma run_tasks_snoc (step : HdTask → HdTaskContext * Scene → HdTaskContext * Scene)
    (ts : list HdTask) (t : HdTask) (cs : HdTaskContext * Scene) :
  run_tasks step (ts ++ [t]) cs = step t (run_tasks step ts cs).
Proof. unfold run_tasks. by rewrite foldl_app. Qed.

Lemma untouched_run_tasks (step : HdTask → HdTaskContext * Scene → HdTaskContext * Scene)
    (ts : list HdTask) (cs : HdTaskContext * Scene) :
  untouched_by_tasks step ts cs →
  drivers_entries (run_tasks step ts cs).1 = drivers_entries cs.1.
Proof.
  induction ts as [|t ts IH] using rev_ind; intros Hts; [done|].
  rewrite run_tasks_snoc.
  pose proof (Hts (length ts) t) as Hlast.
  rewrite take_app_length in Hlast. rewrite Hlast by apply list_lookup_middle, eq_refl.
  apply IH. intros k t' Hk.
  pose proof (lookup_lt_Some _ _ _ Hk) as Hlt.
  specialize (Hts k t'). rewrite take_app_le in Hts by lia.
  apply Hts. by rewrite lookup_app_l.
Qed.

(** When nothing touched the drivers entry in a call, the context the
    call ends in has the entries under that key that the seeding left. *)
Lemma drivers_entries_at_end (i : HdRenderIndex) (tasks : HdTaskSharedPtrVector)
    (w : World) :
  drivers_untouched i tasks w →
  drivers_entries (_taskContext (world_of (Execute (Some i) (Some tasks) w)))
  = drivers_entries (seeded i w).
Proof.
  intros (Hsync & Hprep & Hexec). rewrite Execute_total.
  destruct (all_live (synced_tasks i tasks w)); cbn [world_of _taskContext].
  - unfold after_execute. rewrite untouched_run_tasks by auto.
    unfold after_commit. cbn [fst].
    unfold after_prepare. by rewrite untouched_run_tasks.
  - by rewrite untouched_run_tasks.
Qed.

(** C5, as the code has it.  In every call with non-null arguments the
    drivers of the index are stored under the drivers key before [SyncAll]
    is called, in the place of whatever was stored there: the context
    handed to [SyncAll] holds exactly one entry under that key, with the
    current drivers, and every other key is as it was.  The context the
    call ends in still holds exactly that entry, provided that in this
    call [SyncAll] and the [Prepare] and [Execute] calls that were made
    left the entries under the drivers key as they found them. *)
Theorem Execute_seeds_drivers (i : HdRenderIndex) (tasks : HdTaskSharedPtrVector)
    (w : World) :
  unique_keys (_taskContext w) →
  (∃ evs,
     trace (world_of (Execute (Some i) (Some tasks) w)) =
       trace w ++ [CallGetDrivers; CallSyncAll tasks (seeded i w)] ++ evs)
  ∧ find HdTokens_drivers (seeded i w) = Some (VtValue_of_drivers (GetDrivers i (scene w)))
  ∧ drivers_entries (seeded i w) =
      [(HdTokens_drivers, VtValue_of_drivers (GetDrivers i (scene w)))]
  ∧ (∀ id, id ≠ HdTokens_drivers → find id (seeded i w) = find id (_taskContext w))
  ∧ (drivers_untouched i tasks w →
     drivers_entries (_taskContext (world_of (Execute (Some i) (Some tasks) w))) =
       [(HdTokens_drivers, VtValue_of_drivers (GetDrivers i (scene w)))]).
Proof.
  intros Hw.
  assert (drivers_entries (seeded i w) =
            [(HdTokens_drivers, VtValue_of_drivers (GetDrivers i (scene w)))]) as Hseed.
  { by apply filter_key_subscript_assign. }
  split; [|split; [|split; [done|split]]].
  - destruct (Execute_trace i tasks w) as [-> _]. unfold call_events. cbv zeta.
    by eexists.
  - unfold seeded. by rewrite find_subscript_assign, decide_True.
  - intros id Hid. unfold seeded. by rewrite find_subscript_assign, decide_False.
  - intros Hun. by rewrite drivers_entries_at_end.
Qed.

(** X5.  A value that the client stores with [SetTaskContextData] before a
    call is what [SyncAll] finds under that key, except under the drivers
    key: there [SyncAll] finds the drivers of the index, and the client's
    value is gone.  The keys the client did not set are as they were,
    apart from the drivers key.  This is so however the call ends. *)
Theorem SetTaskContextData_then_Execute (id : TfToken) (data : VtValue)
    (i : HdRenderIndex) (tasks : HdTaskSharedPtrVector) (w : World) :
  ∃ ctx evs,
    trace (world_of ((SetTaskContextData id data;;' Execute (Some i) (Some tasks)) w))
      = trace w ++ [CallGetDrivers; CallSyncAll tasks ctx] ++ evs
    ∧ find id ctx =
        Some (if decide (id = HdTokens_drivers)
              then VtValue_of_drivers (GetDrivers i (scene w)) else data)
    ∧ find HdTokens_drivers ctx = Some (VtValue_of_drivers (GetDrivers i (scene w)))
    ∧ (∀ id', id' ≠ id → id' ≠ HdTokens_drivers →
         find id' ctx = find id' (_taskContext w)).
Proof.
  unfold eng_bind. rewrite SetTaskContextData_returns.
  match goal with |- context [Execute (Some i) (Some tasks) ?w1] =>
    destruct (Execute_trace i tasks w1) as [-> _] end.
  unfold call_events. cbv zeta. cbn [trace]. eexists _, _. split; [done|].
  unfold seeded. cbn [_taskContext scene]. rewrite !find_subscript_assign.
  split; [|split].
  - destruct (decide (HdTokens_drivers = id)) as [<-|Hne].
    + by rewrite decide_True.
    + rewrite (decide_True (P := id = id)) by done.
      by rewrite (decide_False (P := id = HdTokens_drivers)) by done.
  - by rewrite decide_True.
  - intros id' Hid Hd. rewrite !find_subscript_assign. by rewrite !decide_False.
Qed.


(** X7.  After a call that returned, [GetTaskContextData] of the drivers key
    succeeds and yields the drivers the index had when the call started,
    provided that in this call [SyncAll] and the [Prepare] and [Execute]
    of the tasks left the entries under that key as they found them.
    Nothing is assumed about the context before the call. *)
Theorem Execute_then_GetTaskContextData (i : HdRenderIndex)
    (tasks : HdTaskSharedPtrVector) (w w1 : World) (r : option HdTaskSharedPtrVector)
    (d : VtValue) :
  Execute (Some i) (Some tasks) w = Returned r w1 →
  drivers_untouched i tasks w →
  (Execute (Some i) (Some tasks);;' GetTaskContextData HdTokens_drivers (Some d)) w
  = Returned (true, Some (VtValue_of_drivers (GetDrivers i (scene w)))) w1.
Proof.
  intros Hret Hun. pose proof (drivers_entries_at_end i tasks w Hun) as Hend.
  unfold eng_bind at 1. rewrite Hret in *. cbn [world_of] in Hend.
  cbn [GetTaskContextData]. unfold eng_bind, get_taskContext.
  rewrite find_filter_key. fold (drivers_entries (_taskContext w1)). rewrite Hend.
  unfold drivers_entries. rewrite <- find_filter_key.
  unfold seeded. by rewrite find_subscript_assign, decide_True.
Qed.
End around_a_call.

(** ** The calls above on the sample scene *)

(** C1, as the claim has it, fails in two ways.  A vector with a null
    entry gets one [Prepare] call and no [CommitResources] call at all;
    and an empty vector that [SyncAll] of index 1 fills with task 7 gets a
    [Prepare] and an [Execute] call. *)
Lemma Execute_phase_protocol_fails :
  (∃ w' : @World sample_types,
     @Execute sample_types sample (Some 0) (Some [Some 3; None; Some 5]) sample_world
       = Crashed NullDereference w'
     ∧ @phase_calls sample_types (trace w') =
         [@CallSyncAll sample_types [Some 3; None; Some 5]
            [("drivers", [4; 2]); ("viewport", [640; 480])];
          @CallPrepare sample_types 3])
  ∧ (∃ w' : @World sample_types,
       @Execute sample_types sample (Some 1) (Some []) sample_world
         = Returned (Some [Some 7]) w'
       ∧ @prepare_calls sample_types (trace w') = [7]
       ∧ @execute_calls sample_types (trace w') = [7]).
Proof.
  split; eexists; (split; [vm_compute; reflexivity|]); by vm_compute.
Qed.

Lemma Execute_phase_protocol_witness :
  @synced_tasks sample_types sample 0 [] sample_world = []
  ∧ ∃ (w' : @World sample_types) (evs : list (@Event sample_types)),
      @Execute sample_types sample (Some 0) (Some []) sample_world = Returned (Some []) w'
      ∧ trace w' = trace sample_world ++ evs
      ∧ phase_calls evs =
          [@CallSyncAll sample_types [] (@seeded sample_types sample 0 sample_world);
           CallCommitResources].
Proof.
  split; [reflexivity|].
  destruct (@Execute_phase_protocol sample_types sample 0 [] sample_world)
    as (evs & Ht & _ & _ & Hempty & _).
  destruct (Hempty eq_refl) as (Hp & w' & Hr).
  exists w', evs. split; [exact Hr|]. split; [|exact Hp].
  rewrite Hr in Ht. exact Ht.
Defined.





Lemma sample_drivers_untouched :
  @drivers_untouched sample_types sample 0 [Some 3; Some 5] sample_world.
Proof.
  split; [reflexivity|]. split.
  - intros k t Hk. destruct k as [|[|k]]; vm_compute in Hk;
      [injection Hk as <- | injection Hk as <- | discriminate]; reflexivity.
  - intros _ k t Hk. destruct k as [|[|k]]; vm_compute in Hk;
      [injection Hk as <- | injection Hk as <- | discriminate]; reflexivity.
Qed.

Lemma Execute_seeds_drivers_witness :
  UnorderedMap.unique_keys (_taskContext sample_world)
  ∧ @drivers_untouched sample_types sample 0 [Some 3; Some 5] sample_world
  ∧ @drivers_entries sample_types (@seeded sample_types sample 0 sample_world)
      = [("drivers", [4; 2])]
  ∧ @drivers_entries sample_types
      (_taskContext (world_of (@Execute sample_types sample (Some 0)
                                 (Some [Some 3; Some 5]) sample_world)))
      = [("drivers", [4; 2])].
Proof.
  split; [apply sample_world_unique_keys|]. split; [apply sample_drivers_untouched|].
  destruct (@Execute_seeds_drivers sample_types sample 0 [Some 3; Some 5] sample_world
              sample_world_unique_keys) as (_ & _ & Hseed & _ & Hend).
  split; [exact Hseed|]. exact (Hend sample_drivers_untouched).
Defined.

Lemma SetTaskContextData_then_Execute_witness :
  ∃ (ctx : list (string * list nat)) (evs : list (@Event sample_types)),
    trace (world_of ((eng_bind (@SetTaskContextData sample_types "camera" [7])
                        (λ _, @Execute sample_types sample (Some 0)
                                (Some [Some 3; None])))
                       sample_world))
      = trace sample_world
        ++ [CallGetDrivers; @CallSyncAll sample_types [Some 3; None] ctx] ++ evs
    ∧ UnorderedMap.find "camera" ctx = Some [7]
    ∧ UnorderedMap.find "viewport" ctx = Some [640; 480].
Proof.
  destruct (@SetTaskContextData_then_Execute sample_types sample "camera" [7] 0
              [Some 3; None] sample_world)
    as (ctx & evs & Ht & Hf & _ & Hother).
  exists ctx, evs. split; [exact Ht|]. split; [exact Hf|].
  etrans; [apply (Hother "viewport"); discriminate | reflexivity].
Defined.


Lemma Execute_then_GetTaskContextData_witness :
  ∃ w1 : @World sample_types,
    @Execute sample_types sample (Some 0) (Some [Some 3; Some 5]) sample_world
      = Returned (Some [Some 3; Some 5]) w1
    ∧ @drivers_untouched sample_types sample 0 [Some 3; Some 5] sample_world
    ∧ (eng_bind (@Execute sample_types sample (Some 0) (Some [Some 3; Some 5]))
         (λ _, @GetTaskContextData sample_types HdTokens_drivers (Some [0])))
        sample_world = Returned (true, Some [4; 2]) w1.
Proof.
  eexists.
  assert (@Execute sample_types sample (Some 0) (Some [Some 3; Some 5]) sample_world
          = Returned (Some [Some 3; Some 5]) _) as Hret by (vm_compute; reflexivity).
  split; [exact Hret|]. split; [apply sample_drivers_untouched|].
  exact (@Execute_then_GetTaskContextData sample_types sample 0 [Some 3; Some 5]
           sample_world _ _ [0] Hret sample_drivers_untouched).
Defined.
